(** * The Prisma Cloud API client of [src/prismacloud_api]

    A shallow embedding of [PrismaCloudAPIMixin] ([cspm.py]) and of the
    attributes its host class [PrismaCloudAPI] ([pc_lib_api.py]) gives it:
    token login and renewal, the retry wrapper and the page loop of
    [execute].

    Python values that come out of [json.loads] are the inductive [json];
    the methods run in a state-and-exception monad over the client object
    and the outside world.  The world is an oracle: [server] answers the
    n-th HTTP request, [clock] is the n-th reading of [time.time()] (any
    readings: what sleeping and waiting do to the time is left open).
    Everything the methods do to the world is recorded in [events].

    The kind of [self.lock] is an attribute of the client: the mixin takes
    the lock from its host class, and [pc_lib_api.py] makes a
    [threading.Lock].  With that lock [execute] blocks in its own token
    check (claim C8).  What [execute] does is therefore stated first for the
    client as [pc_lib_api.py] builds it, called with its lock free; what the
    page loop behind the token check would do is stated for the loop, run from
    such a state.  [token_limit], which [login] and [extend_login] read, is
    an attribute the repository never assigns: it is optional, and absent on
    the client as built. *)

From Stdlib Require Import ZArith List String Ascii Bool Lia Arith.
From Stdlib.Strings Require Import Byte.
From Stdlib Require Import DecimalString.
From Stdlib Require QArith.
Import ListNotations.

#[local] Set Warnings "-register-all".


Local Open Scope string_scope.
Local Open Scope Z_scope.

(** ** Python values *)

Module Py.

(** What [json.loads] builds: [None], [bool], [int], [float], [str], [list]
    and [dict] (insertion-ordered, string keys). *)
Inductive json : Type :=
| JNull
| JBool (b : bool)
| JInt (n : Z)
| JReal (q : QArith_base.Q)
| JStr (s : string)
| JArr (l : list json)
| JObj (kv : list (string * json)).

(** Python truth value ([if v], [not v], [a and b]). *)
Definition truthy (v : json) : bool :=
  match v with
  | JNull => false
  | JBool b => b
  | JInt n => negb (n =? 0)
  | JReal q => negb (QArith_base.Qnum q =? 0)
  | JStr s => negb (s =? "")%string
  | JArr l => match l with [] => false | _ :: _ => true end
  | JObj kv => match kv with [] => false | _ :: _ => true end
  end.

(** [k in d] and [d[k]] / [d.get(k)] on the entries of a dict. *)
Fixpoint lookup (k : string) (kv : list (string * json)) : option json :=
  match kv with
  | [] => None
  | (k', v) :: rest => if (k =? k')%string then Some v else lookup k rest
  end.

Definition nl : string := String (ascii_of_nat 10) EmptyString.

(** [str(n)] for an [int]. *)
Definition str_int (n : Z) : string := NilZero.string_of_int (Z.to_int n).
Definition str_nat (n : nat) : string := NilEmpty.string_of_uint (Nat.to_uint n).

(** The exceptions the client can raise or let through. *)
Inductive exn : Type :=
| SystemExit (msg : string)
| RequestException (e : string)
| ValueError
| UnicodeDecodeError
| KeyError (k : string)
| TypeError
| AttributeError.

(** What [execute] hands back: [None], [bytes], [str], the decoded JSON
    value, or the list [results]. *)
Inductive pyret : Type :=
| RNone
| RBytes (b : list byte)
| RText (s : string)
| RJson (v : json)
| RList (l : list json).

(** A [str] is held as its UTF-8 encoding.  Its characters are its code
    points: a byte and the continuation bytes ([10xxxxxx]) that follow it. *)
Definition is_continuation (a : ascii) : bool :=
  match a with
  | Ascii _ _ _ _ _ _ b6 b7 => b7 && negb b6
  end.

Definition starts_inside (s : string) : bool :=
  match s with
  | String a _ => is_continuation a
  | EmptyString => false
  end.

(** Iterating a decoded value, as [list.extend] does: a list gives its
    elements, a string its characters, a dict its keys; the other values are
    not iterable. *)
Fixpoint chars (s : string) : list json :=
  match s with
  | EmptyString => []
  | String a s' =>
      match chars s' with
      | JStr t :: rest =>
          if starts_inside t then JStr (String a t) :: rest
          else JStr (String a EmptyString) :: JStr t :: rest
      | rest => JStr (String a EmptyString) :: rest
      end
  end.

Definition iterate (v : json) : option (list json) :=
  match v with
  | JArr l => Some l
  | JStr s => Some (chars s)
  | JObj kv => Some (map (fun p => JStr (fst p)) kv)
  | _ => None
  end.

End Py.
Export Py.

(** ** The [requests] library as seen by the client *)

Module Requests.

Definition Headers := list (string * json).

Record Request := mkRequest {
  action : string;
  url : string;
  headers : Headers;
  params : json;
  data : option string;
  rq_verify : bool;
  rq_timeout : option (Z * Z)
}.

(** A [requests.Response]: the attributes the client reads.
    [content_type] is [headers.get('Content-Type')]. *)
Record Response := mkResponse {
  ok : bool;
  status_code : Z;
  content : list byte;
  text : string;
  content_type : option string
}.

(** One call of [requests.request]: a response, or a
    [requests.exceptions.RequestException]. *)
Inductive Reply : Type :=
| Responded (r : Response)
| Failed (e : string).

End Requests.
Export Requests.

(** ** The client object and the world *)

(** [self.lock] is made by the host class; [pc_lib_api.py] line 41 makes a
    [threading.Lock()], which is not re-entrant: acquiring it while it is
    held blocks, also for the thread that holds it.  [RLock] is the
    re-entrant kind. *)
Inductive LockKind : Type := Lock | RLock.

Record Client := mkClient {
  api : string;
  identity : json;
  secret : json;
  verify : bool;
  debug : bool;
  timeout : option (Z * Z);
  user_agent : string;
  retry_waits : list Z;
  token_limit : option Z;
  token : json;
  token_expiry : option Z;
  lock : LockKind;
  lock_held : nat
}.

Inductive Event : Type :=
| EvRequest (r : Request)
| EvSleep (seconds : Z)
| EvLogError (msg : string)
| EvPrint (msg : string) (arg : option json)
| EvDisableWarnings.

Record State := mkState {
  self : Client;
  ticks : nat;
  nreq : nat;
  events : list Event
}.

Definition with_self (f : Client -> Client) (st : State) : State :=
  mkState (f (self st)) (ticks st) (nreq st) (events st).

Definition set_token (v : json) (c : Client) : Client :=
  mkClient (api c) (identity c) (secret c) (verify c) (debug c) (timeout c)
    (user_agent c) (retry_waits c) (token_limit c) v (token_expiry c)
    (lock c) (lock_held c).

Definition set_token_expiry (e : option Z) (c : Client) : Client :=
  mkClient (api c) (identity c) (secret c) (verify c) (debug c) (timeout c)
    (user_agent c) (retry_waits c) (token_limit c) (token c) e
    (lock c) (lock_held c).

Definition set_lock_held (n : nat) (c : Client) : Client :=
  mkClient (api c) (identity c) (secret c) (verify c) (debug c) (timeout c)
    (user_agent c) (retry_waits c) (token_limit c) (token c) (token_expiry c)
    (lock c) n.

(** [PrismaCloudAPI.__init__] ([pc_lib_api.py] lines 27-44).  [version]
    comes from a module that is not in the repository.  [token_limit], which
    [login] and [extend_login] read, is assigned neither here nor anywhere
    else: the attribute is absent ([None]) unless a caller sets it. *)
Definition PrismaCloudAPI__init__ (version : string) : Client :=
  {| api := ""; identity := JNull; secret := JNull; verify := true;
     debug := false; timeout := None;
     user_agent := "PrismaCloudAPI/" ++ version;
     retry_waits := [1; 2; 4; 8; 16; 32];
     token_limit := None;
     token := JNull; token_expiry := None;
     lock := Lock; lock_held := 0 |}.

(** ** The monad *)

(** A method call ends with a value, with an exception, blocked for ever on
    the lock, or (the [while] loop of [execute] only) out of fuel. *)
Inductive outcome (A : Type) : Type :=
| Val (a : A)
| Raise (e : exn)
| Blocked
| OutOfFuel.
Arguments Val {A} a.
Arguments Raise {A} e.
Arguments Blocked {A}.
Arguments OutOfFuel {A}.

Definition M (A : Type) : Type := State -> outcome A * State.

Definition ret {A} (a : A) : M A := fun st => (Val a, st).

Definition bind {A B} (m : M A) (f : A -> M B) : M B :=
  fun st =>
    match m st with
    | (Val a, st') => f a st'
    | (Raise e, st') => (Raise e, st')
    | (Blocked, st') => (Blocked, st')
    | (OutOfFuel, st') => (OutOfFuel, st')
    end.

Definition raise {A} (e : exn) : M A := fun st => (Raise e, st).

Declare Scope py_scope.
Delimit Scope py_scope with py.
Notation "x <- m ;; k" := (bind m (fun x => k))
  (at level 61, m at next level, right associativity) : py_scope.
Notation "m ;; k" := (bind m (fun _ => k))
  (at level 61, right associativity) : py_scope.
Local Open Scope py_scope.

Definition get_self : M Client := fun st => (Val (self st), st).
Definition modify_self (f : Client -> Client) : M unit :=
  fun st => (Val tt, with_self f st).
Definition emit (e : Event) : M unit :=
  fun st => (Val tt, mkState (self st) (ticks st) (nreq st) (events st ++ [e])).

(** [try: m except RequestException as e: h e]. *)
Definition try_except_RequestException {A} (m : M A) (h : string -> M A) : M A :=
  fun st =>
    match m st with
    | (Raise (RequestException e), st') => h e st'
    | r => r
    end.

(** [with self.lock: body].  The lock is released when the body ends with a
    value or an exception. *)
Definition acquirable (c : Client) : bool :=
  match lock c with
  | RLock => true
  | Lock => Nat.eqb (lock_held c) 0
  end.

Definition with_lock {A} (body : M A) : M A :=
  fun st =>
    if acquirable (self st) then
      match body (with_self (fun c => set_lock_held (S (lock_held c)) c) st) with
      | (Val a, st') =>
          (Val a, with_self (fun c => set_lock_held (pred (lock_held c)) c) st')
      | (Raise e, st') =>
          (Raise e, with_self (fun c => set_lock_held (pred (lock_held c)) c) st')
      | r => r
      end
    else (Blocked, st).

(** ** The mixin *)

Section Mixin.

(** The world: the reply to the n-th request, and the n-th clock reading. *)
Variable server : nat -> Request -> Reply.
Variable clock : nat -> Z.

(** Library functions: [json.loads] ([None] for a [ValueError]),
    [json.dumps], and [bytes.decode('utf-8')]. *)
Variable json_loads : list byte -> option json.
Variable json_dumps : json -> string.
Variable utf8_decode : list byte -> option string.

Definition time_time : M Z :=
  fun st => (Val (clock (ticks st)),
             mkState (self st) (S (ticks st)) (nreq st) (events st)).

Definition time_sleep (seconds : Z) : M unit := emit (EvSleep seconds).

Definition logger_error (msg : string) : M unit := emit (EvLogError msg).

Definition requests_request (rq : Request) : M Response :=
  fun st =>
    let st' := mkState (self st) (ticks st) (S (nreq st))
                 (events st ++ [EvRequest rq]) in
    match server (nreq st) rq with
    | Responded r => (Val r, st')
    | Failed e => (Raise (RequestException e), st')
    end.

Definition suppress_warnings_when_verify_false : M unit :=
  c <- get_self ;;
  if verify c then ret tt else emit EvDisableWarnings.

(** [error_and_exit]: raises [SystemExit] with the formatted message. *)
Definition error_and_exit {A} (error_code : Z) (error_message system_message : string)
  : M A :=
  raise (SystemExit (nl ++ nl ++ "Status Code: " ++ str_int error_code ++ nl
                     ++ error_message ++ nl ++ system_message ++ nl)).

(** [_perform_request_with_retries]: the [for] loop over
    [enumerate(self.retry_waits, start=1)], then the final attempt. *)
Fixpoint retry_loop (attempt : nat) (waits : list Z) (rq : Request) : M Response :=
  match waits with
  | [] => requests_request rq
  | wait_time :: rest =>
      r <- try_except_RequestException
             (response <- requests_request rq ;;
              ret (if ok response then Some response else None))
             (fun e =>
                logger_error ("Request exception during attempt "
                              ++ str_nat attempt ++ ": " ++ e) ;;
                ret None) ;;
      match r with
      | Some response => ret response
      | None => time_sleep wait_time ;; retry_loop (S attempt) rest rq
      end
  end.

Definition _perform_request_with_retries
    (action url : string) (headers : Headers) (params : json)
    (data : option string) : M Response :=
  c <- get_self ;;
  retry_loop 1 (retry_waits c)
    (mkRequest action url headers params data (verify c) (timeout c)).

(** [is_token_expired] ([cspm.py] lines 156-159): the clock is read only
    when an expiry is recorded. *)
Definition is_token_expired : M bool :=
  with_lock
    (c <- get_self ;;
     match token_expiry c with
     | None => ret true
     | Some expiry =>
         if expiry =? 0 then ret true
         else now <- time_time ;; ret (expiry <=? now)
     end).

(** [json.loads(api_response.content)] where nothing catches its
    [ValueError]. *)
Definition loads_or_raise (b : list byte) : M json :=
  match json_loads b with
  | Some v => ret v
  | None => raise ValueError
  end.

(** [d.get(k)]: only a dict has the method. *)
Definition get_method (d : json) (k : string) : M json :=
  match d with
  | JObj kv => ret (match lookup k kv with Some v => v | None => JNull end)
  | _ => raise AttributeError
  end.

(** The body of [with self.lock:] in [login] and [extend_login].  In
    [time.time() + self.token_limit] the clock is read first; reading an
    attribute that is absent raises [AttributeError], after the token has been
    assigned. *)
Definition store_token (api_response : Response) : M unit :=
  with_lock
    (api_response_data <- loads_or_raise (content api_response) ;;
     tok <- get_method api_response_data "token" ;;
     modify_self (set_token tok) ;;
     now <- time_time ;;
     c <- get_self ;;
     match token_limit c with
     | Some limit => modify_self (set_token_expiry (Some (now + limit)))
     | None => raise AttributeError
     end).

Definition responded_with_an_error (url : string) (api_response : Response)
  : string :=
  "API (" ++ url ++ ") responded with an error" ++ nl ++ text api_response.

(** [login] ([cspm.py] lines 22-51). *)
Definition login (url : option string) : M unit :=
  suppress_warnings_when_verify_false ;;
  c <- get_self ;;
  let url := match url with
             | Some u => if (u =? "")%string then "https://" ++ api c ++ "/login" else u
             | None => "https://" ++ api c ++ "/login"
             end in
  let action := "POST" in
  let request_headers := [("Content-Type", JStr "application/json");
                          ("User-Agent", JStr (user_agent c))] in
  let body_params_json :=
    json_dumps (JObj [("username", identity c); ("password", secret c)]) in
  api_response <- _perform_request_with_retries action url request_headers
                    JNull (Some body_params_json) ;;
  (if ok api_response then store_token api_response
   else error_and_exit (status_code api_response)
          (responded_with_an_error url api_response) "") ;;
  c <- get_self ;;
  if debug c then emit (EvPrint "New API Token:" (Some (token c))) else ret tt.

(** [extend_login] ([cspm.py] lines 53-78). *)
Definition extend_login : M unit :=
  suppress_warnings_when_verify_false ;;
  c <- get_self ;;
  let url := "https://" ++ api c ++ "/auth_token/extend" in
  let action := "GET" in
  let request_headers := [("Content-Type", JStr "application/json");
                          ("User-Agent", JStr (user_agent c));
                          ("x-redlock-auth", token c)] in
  api_response <- _perform_request_with_retries action url request_headers
                    JNull None ;;
  (if ok api_response then store_token api_response
   else error_and_exit (status_code api_response)
          (responded_with_an_error url api_response) "") ;;
  c <- get_self ;;
  if debug c then emit (EvPrint "Extending API Token" None) else ret tt.

(** The headers [execute] builds when the caller gave none. *)
Definition default_headers (c : Client) : Headers :=
  [("Content-Type", JStr "application/json");
   ("User-Agent", JStr (user_agent c));
   ("x-redlock-auth", token c)].

Definition headers_given (h : option Headers) : bool :=
  match h with
  | Some (_ :: _) => true
  | _ => false
  end.

(** [results.extend(result['items'])] and the continuation token:
    what a decoded page adds, and the value of [more] (absent key: [False]). *)
Definition page_items (result : json) : M (list json) :=
  match result with
  | JObj kv =>
      match lookup "items" kv with
      | None => raise (KeyError "items")
      | Some items =>
          match iterate items with
          | Some l => ret l
          | None => raise TypeError
          end
      end
  | _ => raise TypeError
  end.

Definition next_page_token (result : json) : option json :=
  match result with
  | JObj kv =>
      match lookup "nextPageToken" kv with
      | Some t => if truthy t then Some t else None
      | None => None
      end
  | _ => None
  end.

(** The [while more:] loop of [execute] ([cspm.py] lines 93-136), one
    unit of fuel per iteration.  [more] is true whenever the loop goes round
    again, so it is not an argument. *)
Fixpoint execute_loop (fuel : nat) (action endpoint : string)
    (query_params body_params : json) (request_headers : option Headers)
    (force paginated : bool) (results : list json) : M pyret :=
  match fuel with
  | O => fun st => (OutOfFuel, st)
  | S fuel' =>
      expired <- is_token_expired ;;
      (if expired then extend_login else ret tt) ;;
      c <- get_self ;;
      let url := "https://" ++ api c ++ "/" ++ endpoint in
      let hdrs := if headers_given request_headers
                  then match request_headers with Some h => h | None => [] end
                  else default_headers c in
      let body_params_json :=
        if truthy body_params then Some (json_dumps body_params) else None in
      api_response <- _perform_request_with_retries action url hdrs
                        query_params body_params_json ;;
      if ok api_response then
        match content api_response with
        | [] => ret RNone
        | _ :: _ =>
            if match content_type api_response with
               | Some t => (t =? "application/x-gzip")%string
               | None => false
               end
            then ret (RBytes (content api_response))
            else if match content_type api_response with
                    | Some t => (t =? "text/csv")%string
                    | None => false
                    end
            then match utf8_decode (content api_response) with
                 | Some s => ret (RText s)
                 | None => raise UnicodeDecodeError
                 end
            else
              match json_loads (content api_response) with
              | None =>
                  logger_error "JSON parsing error." ;;
                  if force then ret (RList results)
                  else error_and_exit (status_code api_response)
                         "Error parsing response" ""
              | Some result =>
                  if paginated then
                    items <- page_items result ;;
                    match next_page_token result with
                    | Some t =>
                        execute_loop fuel' action endpoint query_params
                          (JObj [("pageToken", t)]) (Some hdrs)
                          force paginated (results ++ items)
                    | None => ret (RList (results ++ items))
                    end
                  else ret (RJson result)
              end
        end
      else
        logger_error "API error response." ;;
        execute_loop fuel' action endpoint query_params body_params
          (Some hdrs) force paginated results
  end.

(** The token check at the head of [execute] ([cspm.py] lines 86-88):
    [login] and [is_token_expired] are called with the lock held. *)
Definition ensure_token : M unit :=
  with_lock
    (c <- get_self ;;
     if negb (truthy (token c)) then login None
     else
       expired <- is_token_expired ;;
       if expired then login None else ret tt).

(** [execute] ([cspm.py] lines 80-136). *)
Definition execute (fuel : nat) (action endpoint : string)
    (query_params body_params : json) (request_headers : option Headers)
    (force paginated : bool) : M pyret :=
  suppress_warnings_when_verify_false ;;
  ensure_token ;;
  execute_loop fuel action endpoint query_params body_params request_headers
    force paginated [].

End Mixin.

(** ** What the methods do *)

Local Open Scope list_scope.

(** Projections of the event log. *)
Definition requests_of (evs : list Event) : list Request :=
  flat_map (fun e => match e with EvRequest r => [r] | _ => [] end) evs.

Definition sleeps_of (evs : list Event) : list Z :=
  flat_map (fun e => match e with EvSleep w => [w] | _ => [] end) evs.

Definition errors_of (evs : list Event) : list string :=
  flat_map (fun e => match e with EvLogError m => [m] | _ => [] end) evs.

(** The log without its [logger.error] and [print] lines. *)
Definition traffic_of (evs : list Event) : list Event :=
  filter (fun e => match e with EvRequest _ | EvSleep _ => true | _ => false end) evs.

(** An attempt that does not end the retry loop: a response that is not
    [ok], or a [RequestException]. *)
Definition failed (rep : Reply) : bool :=
  match rep with
  | Responded r => negb (ok r)
  | Failed _ => true
  end.

(** What a call of [requests.request] gives for a reply. *)
Definition reply_outcome (rep : Reply) : outcome Response :=
  match rep with
  | Responded r => Val r
  | Failed e => Raise (RequestException e)
  end.

(** The state after [n] more requests that left [evs] in the log. *)
Definition advance (st : State) (n : nat) (evs : list Event) : State :=
  mkState (self st) (ticks st) (nreq st + n) (events st ++ evs).

(** One more reading of the clock. *)
Definition tick (st : State) : State :=
  mkState (self st) (S (ticks st)) (nreq st) (events st).

(** The request of one page fetch of [execute]: [hdrs] are the headers in
    use, [body_params] the current body. *)
Definition data_request (json_dumps : json -> string) (c : Client)
    (action endpoint : string) (query_params : json) (hdrs : Headers)
    (body_params : json) : Request :=
  mkRequest action ("https://" ++ api c ++ "/" ++ endpoint)%string hdrs query_params
    (if truthy body_params then Some (json_dumps body_params) else None)
    (verify c) (timeout c).

(** The headers of the page fetches: the caller's when given, else the
    default ones with the token of [c]. *)
Definition effective_headers (c : Client) (request_headers : option Headers)
  : Headers :=
  if headers_given request_headers
  then match request_headers with Some h => h | None => [] end
  else default_headers c.

(** The requests of [login] and [extend_login]. *)
Definition login_request (json_dumps : json -> string) (c : Client) : Request :=
  mkRequest "POST" ("https://" ++ api c ++ "/login")%string
    [("Content-Type", JStr "application/json"); ("User-Agent", JStr (user_agent c))]
    JNull
    (Some (json_dumps (JObj [("username", identity c); ("password", secret c)])))
    (verify c) (timeout c).

Definition extend_request (c : Client) : Request :=
  mkRequest "GET" ("https://" ++ api c ++ "/auth_token/extend")%string
    [("Content-Type", JStr "application/json"); ("User-Agent", JStr (user_agent c));
     ("x-redlock-auth", token c)]
    JNull None (verify c) (timeout c).

(** The URL [login] posts to: its argument when that is truthy. *)
Definition login_url (c : Client) (url : option string) : string :=
  match url with
  | Some u => if (u =? "")%string then ("https://" ++ api c ++ "/login")%string else u
  | None => ("https://" ++ api c ++ "/login")%string
  end.

(** The client with a new token and its expiry. *)
Definition renewed (c : Client) (tok : json) (expiry : Z) : Client :=
  set_token_expiry (Some expiry) (set_token tok c).

(** [d.get('token')] on the entries of a dict. *)
Definition token_field (kv : list (string * json)) : json :=
  match lookup "token" kv with
  | Some v => v
  | None => JNull
  end.

(** The token has an expiry that no reading of the clock reaches. *)
Definition token_live (clock : nat -> Z) (c : Client) : Prop :=
  exists expiry, token_expiry c = Some expiry /\ expiry <> 0
                 /\ forall n, clock n < expiry.

(** A successful response that [execute] JSON-decodes to [v]: it has a
    body, and its Content-Type is neither gzip nor CSV. *)
Definition json_response (json_loads : list byte -> option json)
    (r : Response) (v : json) : Prop :=
  ok r = true /\ content r <> []
  /\ content_type r <> Some "application/x-gzip"%string
  /\ content_type r <> Some "text/csv"%string
  /\ json_loads (content r) = Some v.

(** A well-formed page: a JSON object whose [items] is the array [items];
    [next] is its [nextPageToken] when that is present and truthy. *)
Definition page (json_loads : list byte -> option json)
    (r : Response) (items : list json) (next : option json) : Prop :=
  exists kv,
    json_response json_loads r (JObj kv)
    /\ lookup "items" kv = Some (JArr items)
    /\ match next with
       | Some t => lookup "nextPageToken" kv = Some t /\ truthy t = true
       | None => lookup "nextPageToken" kv = None
                 \/ exists t, lookup "nextPageToken" kv = Some t /\ truthy t = false
       end.

(** A page that is followed by another: its response, its items and its
    continuation token. *)
Definition Page : Type := Response * list json * json.

Definition items_of (pages : list Page) : list json :=
  flat_map (fun p => snd (fst p)) pages.

Definition continuation (t : json) : json := JObj [("pageToken", t)].

(** The body of the request that follows [pages]. *)
Fixpoint body_after (body : json) (pages : list Page) : json :=
  match pages with
  | [] => body
  | (_, _, t) :: rest => body_after (continuation t) rest
  end.

(** The requests that fetch [pages], [mkrq body] being the request that
    carries [body]. *)
Fixpoint page_requests (mkrq : json -> Request) (body : json)
    (pages : list Page) : list Request :=
  match pages with
  | [] => []
  | (_, _, t) :: rest => mkrq body :: page_requests mkrq (continuation t) rest
  end.

(** The server answers the requests [n], [n+1], ... with [pages] in order,
    each a well-formed page with a truthy [nextPageToken]. *)
Fixpoint served (server : nat -> Request -> Reply)
    (json_loads : list byte -> option json) (mkrq : json -> Request)
    (n : nat) (body : json) (pages : list Page) : Prop :=
  match pages with
  | [] => True
  | (r, items, t) :: rest =>
      server n (mkrq body) = Responded r
      /\ page json_loads r items (Some t)
      /\ served server json_loads mkrq (S n) (continuation t) rest
  end.

(** How a successful response without a JSON body comes back: nothing
    for an empty body, the bytes for gzip, the decoded text for CSV. *)
Definition returns_body (utf8_decode : list byte -> option string)
    (out : outcome pyret) (r : Response) : Prop :=
  (content r = [] -> out = Val RNone)
  /\ (content r <> [] -> content_type r = Some "application/x-gzip"%string ->
      out = Val (RBytes (content r)))
  /\ (content r <> [] -> content_type r = Some "text/csv"%string ->
      out = match utf8_decode (content r) with
            | Some s => Val (RText s)
            | None => Raise UnicodeDecodeError
            end).

(** A server that answers every request with a response that is not [ok]. *)
Definition always_unavailable (server : nat -> Request -> Reply) : Prop :=
  forall n rq, exists r, server n rq = Responded r /\ ok r = false.

(** The message of the [SystemExit] that [error_and_exit] raises. *)
Definition exit_message (error_code : Z) (error_message : string) : string :=
  (nl ++ nl ++ "Status Code: " ++ str_int error_code ++ nl
   ++ error_message ++ nl ++ "" ++ nl)%string.

(** How any other successful response comes back: decoded, or on a
    decode failure the results so far under [force] and a fatal error
    otherwise. *)
Definition decodes_json (json_loads : list byte -> option json)
    (out : outcome pyret) (r : Response) (force paginated : bool)
    (results : list json) : Prop :=
  content r <> [] ->
  content_type r <> Some "application/x-gzip"%string ->
  content_type r <> Some "text/csv"%string ->
  (json_loads (content r) = None ->
   out = if force then Val (RList results)
         else Raise (SystemExit (exit_message (status_code r)
                                   "Error parsing response")))
  /\ (forall v, json_loads (content r) = Some v -> paginated = false ->
      out = Val (RJson v)).

(** [needle] occurs in [s]. *)
Definition occurs_in (needle s : string) : Prop :=
  exists pre post, s = (pre ++ needle ++ post)%string.

(** The state with the lock taken once more, and released once. *)
Definition held_more (st : State) : State :=
  with_self (fun c => set_lock_held (S (lock_held c)) c) st.

Definition held_less (st : State) : State :=
  with_self (fun c => set_lock_held (pred (lock_held c)) c) st.

(** The state after the expiry check and the single request of a page
    fetch. *)
Definition fetched (st : State) (rq : Request) : State :=
  advance (tick st) 1 [EvRequest rq].

(** The state after [n] page fetches that each took one request. *)
Definition after_pages (st : State) (rqs : list Request) : State :=
  mkState (self st) (ticks st + List.length rqs) (nreq st + List.length rqs)
    (events st ++ map EvRequest rqs).

(** The state after [suppress_warnings_when_verify_false]. *)
Definition warned (st : State) : State :=
  if verify (self st) then st else advance st 0 [EvDisableWarnings].

(** The state in which [execute] enters its page loop when the token
    check had nothing to do. *)
Definition entered (st : State) : State := tick (warned st).

(** [st'] has the log of [st] and more; a computation that only adds to
    the log. *)
Definition extends (st st' : State) : Prop :=
  exists evs, events st' = events st ++ evs.

Definition grows {A} (m : M A) : Prop := forall st, extends st (snd (m st)).

(** Whatever else [m] does from [st], the first request it sends is [rq]. *)
Definition requests_first {A} (m : M A) (st : State) (rq : Request) : Prop :=
  exists rest,
    requests_of (events (snd (m st))) = requests_of (events st) ++ rq :: rest.

(** The call is blocked on the lock, which it still holds, and [sent] is
    all it has sent. *)
Definition stuck {A} (run : outcome A * State) (st : State) (sent : list Request)
  : Prop :=
  fst run = Blocked
  /\ requests_of (events (snd run)) = requests_of (events st) ++ sent
  /\ lock_held (self (snd run)) = S (lock_held (self st))
  /\ token (self (snd run)) = token (self st)
  /\ token_expiry (self (snd run)) = token_expiry (self st).

(** A call that never comes to its data request: with a token in place it
    is stuck before any request; without one it is stuck after the login
    request, when that is answered [ok]. *)
Definition blocks_before_data (server : nat -> Request -> Reply)
    (json_dumps : json -> string) {A} (call : M A) (st : State) : Prop :=
  (truthy (token (self st)) = true -> stuck (call st) st [])
  /\ (truthy (token (self st)) = false ->
      forall r,
        server (nreq st) (login_request json_dumps (self st)) = Responded r ->
        ok r = true ->
        stuck (call st) st [login_request json_dumps (self st)]).

(** ** The rest of the mixin, and the token methods of the host class *)

(** [self.logger.error] is wrapped in a [CallCounter] ([pc_lib_api.py]
    lines 12-21 and 56): its [counter] is the number of calls so far, here the
    number of error lines in the log. *)
Definition error_counter (st : State) : nat := List.length (errors_of (events st)).

(** [error_report] ([cspm.py] lines 166-168). *)
Definition error_report : M unit :=
  fun st =>
    if (0 <? error_counter st)%nat
    then emit (EvPrint ("API responded with " ++ str_nat (error_counter st)
                        ++ " error(s)")%string None) st
    else ret tt st.

(** [progress] ([cspm.py] lines 170-173). *)
Definition progress (txt : option string) : M unit :=
  match txt with
  | Some t => if (t =? "")%string then ret tt else emit (EvPrint t None)
  | None => ret tt
  end.

(** [try: m except Exception as e: h e]: every exception of the model but
    [SystemExit], which is not an [Exception]. *)
Definition try_except_Exception {A} (m : M A) (h : exn -> M A) : M A :=
  fun st =>
    match m st with
    | (Raise (SystemExit msg), st') => (Raise (SystemExit msg), st')
    | (Raise e, st') => h e st'
    | r => r
    end.

(** The methods [PrismaCloudAPI] defines itself ([pc_lib_api.py] lines
    81-133).  [datetime.now()] is a reading of the clock, a [timedelta] a
    number of seconds; a [datetime] is always truthy, so here only [None]
    counts as no expiry. *)
Module PrismaCloudAPI.

Section Host.

Variable clock : nat -> Z.

(** [str(v)] inside an f-string, for a value and for an exception. *)
Variable py_str : json -> string.
Variable exn_str : exn -> string.

Definition is_token_expired : M bool :=
  with_lock
    (c <- get_self ;;
     match token_expiry c with
     | None => ret true
     | Some expiry => now <- time_time clock ;; ret (expiry <=? now)
     end)%py.

Definition update_token (new_token : json) (expiry_duration_seconds : Z) : M unit :=
  with_lock
    (modify_self (set_token new_token) ;;
     now <- time_time clock ;;
     modify_self (set_token_expiry (Some (now + expiry_duration_seconds))))%py.

Definition get_token : M json :=
  with_lock (c <- get_self ;; ret (token c))%py.

Definition debug_print (message : string) : M unit :=
  (c <- get_self ;;
   if debug c then emit (EvPrint message None) else ret tt)%py.

Definition _simulate_api_call (endpoint payload : json) (headers : Headers)
  : M json :=
  ret (JObj [("status", JStr "success")]).

Definition refresh_token : M unit :=
  update_token (JStr "new_generated_token") 590.

Definition make_api_call (endpoint payload : json) : M json :=
  (expired <- is_token_expired ;;
   (if expired then refresh_token else ret tt) ;;
   headers <- with_lock
                (c <- get_self ;;
                 ret [("Authorization", JStr ("Bearer " ++ py_str (token c))%string);
                      ("User-Agent", JStr (user_agent c))]) ;;
   try_except_Exception
     (_simulate_api_call endpoint payload headers)
     (fun e =>
        logger_error ("API call failed: " ++ exn_str e)%string ;;
        ret JNull))%py.

End Host.

End PrismaCloudAPI.

(** ** More vocabulary *)

(** [c'] has the configuration of [c]: every attribute but the token, its
    expiry and the state of the lock. *)
Definition same_config (c c' : Client) : Prop :=
  api c' = api c /\ identity c' = identity c /\ secret c' = secret c
  /\ verify c' = verify c /\ debug c' = debug c /\ timeout c' = timeout c
  /\ user_agent c' = user_agent c /\ retry_waits c' = retry_waits c
  /\ token_limit c' = token_limit c /\ lock c' = lock c.

(** Run from [st] on a client configured as [c0], [m] keeps the
    configuration, only adds to the log, sends only requests that satisfy [P],
    and, when it ends with a value or an exception, leaves the lock as it
    found it. *)
Definition tidy (c0 : Client) (P : Request -> Prop) {A} (m : M A) (st : State)
  : Prop :=
  same_config c0 (self st) ->
  same_config c0 (self (snd (m st)))
  /\ (exists evs, events (snd (m st)) = events st ++ evs
                  /\ Forall P (requests_of evs))
  /\ match fst (m st) with
     | Val _ | Raise _ => lock_held (self (snd (m st))) = lock_held (self st)
     | _ => True
     end.

(** The two kinds of request of the page loop: an extend call with some
    token, and a data request with the headers [h] and some body. *)
Definition loop_request (json_dumps : json -> string) (c0 : Client)
    (action endpoint : string) (query_params : json) (h : Headers)
    (rq : Request) : Prop :=
  (exists tok, rq = extend_request (set_token tok c0))
  \/ (exists body, rq = data_request json_dumps c0 action endpoint query_params
                          h body).

(** [rq] is made with the [verify] and [timeout] settings of [c]. *)
Definition sent_as (c : Client) (rq : Request) : Prop :=
  rq_verify rq = verify c /\ rq_timeout rq = timeout c.

(** The expiry check and the renewal at the head of an iteration of the
    page loop. *)
Definition renew_if_expired (server : nat -> Request -> Reply) (clock : nat -> Z)
    (json_loads : list byte -> option json) : M unit :=
  (expired <- is_token_expired clock ;;
   if expired then extend_login server clock json_loads else ret tt)%py.

(** ** A sample world *)

Module Sample.

Definition bytes_of (s : string) : list byte := list_byte_of_string s.

(** Sample library functions: a decoder that knows the payloads below, a
    one-line serializer and a decoder of ASCII text. *)
Definition payloads : list (string * json) :=
  [("{token:T1}", JObj [("token", JStr "T1")]);
   ("{token:T2}", JObj [("token", JStr "T2")]);
   ("{items:[1,2],nextPageToken:A}",
    JObj [("items", JArr [JInt 1; JInt 2]); ("nextPageToken", JStr "A")]);
   ("{items:[3],nextPageToken:}",
    JObj [("items", JArr [JInt 3]); ("nextPageToken", JStr "")]);
   ("{nextPageToken:B}", JObj [("nextPageToken", JStr "B")])].

Definition loads (b : list byte) : option json :=
  lookup (string_of_list_byte b) payloads.

Definition dumps (v : json) : string :=
  match v with
  | JObj [(k, JStr s)] => ("{" ++ k ++ ":" ++ s ++ "}")%string
  | JObj (_ :: _ :: _) => "{...}"%string
  | _ => "null"%string
  end.

Definition decode (b : list byte) : option string := Some (string_of_list_byte b).

Definition ok_json (s : string) : Response :=
  mkResponse true 200 (bytes_of s) s (Some "application/json"%string).

Definition page_1 : Response := ok_json "{items:[1,2],nextPageToken:A}".
Definition page_2 : Response := ok_json "{items:[3],nextPageToken:}".
Definition no_items : Response := ok_json "{nextPageToken:B}".
Definition not_json : Response := ok_json "<html>".
Definition no_content : Response := mkResponse true 204 [] "" None.
Definition csv : Response :=
  mkResponse true 200 (bytes_of "a,b") "a,b" (Some "text/csv"%string).
Definition unavailable : Response :=
  mkResponse false 503 (bytes_of "Service Unavailable") "Service Unavailable"
    (Some "text/plain"%string).

(** A server that answers the n-th request with the n-th reply of a script,
    and with 503 after it. *)
Definition scripted (replies : list Reply) : nat -> Request -> Reply :=
  fun n _ => nth n replies (Responded unavailable).

(** A clock that stands still. *)
Definition steady (t : Z) : nat -> Z := fun _ => t.

(** The client as [__init__] leaves it, and a configured client that holds
    the token [T1] with expiry 1590 (as [update_token] at time 1000 leaves
    it), with either kind of lock. *)
Definition fresh : Client := PrismaCloudAPI__init__ "1.0".

Definition logged_in (kind : LockKind) : Client :=
  {| api := "api.prismacloud.io"; identity := JStr "key"; secret := JStr "secret";
     verify := true; debug := false; timeout := None;
     user_agent := "PrismaCloudAPI/1.0";
     retry_waits := [1; 2; 4; 8; 16; 32];
     token_limit := None;
     token := JStr "T1"; token_expiry := Some 1590;
     lock := kind; lock_held := 0 |}.

Definition start (c : Client) : State := mkState c 0 0 [].

End Sample.

(** ** More of the sample world *)

Module More.

(** A body that is valid JSON of another shape than the client expects. *)
Definition payloads : list (string * json) :=
  Sample.payloads ++ [("[1,2]", JArr [JInt 1; JInt 2])].

Definition loads (b : list byte) : option json :=
  lookup (string_of_list_byte b) payloads.

(** [str(v)] for the tokens of the samples, and for an exception. *)
Definition str (v : json) : string :=
  match v with
  | JStr s => s
  | _ => "None"
  end.

Definition str_exn (e : exn) : string := "error".

End More.

(** ** Lemmas *)

Section Retry.

Variable server : nat -> Request -> Reply.

Lemma requests_of_app (a b : list Event) :
  requests_of (a ++ b) = requests_of a ++ requests_of b.
Proof. unfold requests_of. now rewrite flat_map_app. Qed.

Lemma sleeps_of_app (a b : list Event) :
  sleeps_of (a ++ b) = sleeps_of a ++ sleeps_of b.
Proof. unfold sleeps_of. now rewrite flat_map_app. Qed.

Lemma errors_of_app (a b : list Event) :
  errors_of (a ++ b) = errors_of a ++ errors_of b.
Proof. unfold errors_of. now rewrite flat_map_app. Qed.

Lemma traffic_of_app (a b : list Event) :
  traffic_of (a ++ b) = traffic_of a ++ traffic_of b.
Proof. unfold traffic_of. now rewrite filter_app. Qed.

Lemma advance_advance st n evs m evs' :
  advance (advance st n evs) m evs' = advance st (n + m) (evs ++ evs').
Proof.
  unfold advance; simpl. now rewrite Nat.add_assoc, app_assoc.
Qed.

Lemma count_shift (P : nat -> bool) (k : nat) :
  List.length (filter P (seq 0 (S k)))
  = ((if P 0%nat then 1 else 0)
     + List.length (filter (fun i => P (S i)) (seq 0 k)))%nat.
Proof.
  simpl. rewrite <- seq_shift, filter_map_swap.
  destruct (P 0%nat); simpl; now rewrite List.length_map.
Qed.

(** A single call of [requests.request]. *)
Lemma requests_request_run rq st :
  requests_request server rq st
  = (reply_outcome (server (nreq st) rq), advance st 1 [EvRequest rq]).
Proof.
  unfold requests_request, advance. rewrite Nat.add_1_r.
  now destruct (server (nreq st) rq).
Qed.

(** An attempt of the [for] loop that fails: the request, the log line of
    an exception, the sleep, and on to the next attempt. *)
Lemma retry_loop_failed attempt wait_time rest rq st :
  failed (server (nreq st) rq) = true ->
  exists logged,
    retry_loop server attempt (wait_time :: rest) rq st
    = retry_loop server (S attempt) rest rq
        (advance st 1 (EvRequest rq :: logged ++ [EvSleep wait_time]))
    /\ traffic_of logged = [] /\ requests_of logged = [] /\ sleeps_of logged = []
    /\ List.length (errors_of logged)
       = match server (nreq st) rq with Failed _ => 1%nat | Responded _ => 0%nat end.
Proof.
  intros Hf. simpl.
  unfold bind at 1. unfold try_except_RequestException, bind at 1.
  rewrite requests_request_run.
  destruct (server (nreq st) rq) as [r | e]; simpl in *.
  - exists []. apply negb_true_iff in Hf. rewrite Hf. cbn.
    unfold advance; simpl. rewrite <- app_assoc. simpl. auto.
  - eexists [EvLogError _]. cbn.
    unfold advance; simpl. repeat rewrite <- app_assoc. simpl. auto 6.
Qed.

(** An attempt of the [for] loop that succeeds returns at once. *)
Lemma retry_loop_ok attempt wait_time rest rq st :
  failed (server (nreq st) rq) = false ->
  retry_loop server attempt (wait_time :: rest) rq st
  = (reply_outcome (server (nreq st) rq), advance st 1 [EvRequest rq]).
Proof.
  intros Hf. simpl.
  unfold bind at 1. unfold try_except_RequestException, bind at 1.
  rewrite requests_request_run.
  destruct (server (nreq st) rq) as [r | e]; simpl in *; [| discriminate].
  apply negb_false_iff in Hf. now rewrite Hf.
Qed.

(** The retry loop, given the number [k] of attempts that fail before the
    one that ends it. *)
Lemma retry_loop_run waits : forall attempt rq st k,
  (k <= List.length waits)%nat ->
  (forall i, (i < k)%nat -> failed (server (nreq st + i) rq) = true) ->
  ((k < List.length waits)%nat -> failed (server (nreq st + k) rq) = false) ->
  exists evs,
    retry_loop server attempt waits rq st
    = (reply_outcome (server (nreq st + k) rq), advance st (S k) evs)
    /\ requests_of evs = repeat rq (S k)
    /\ sleeps_of evs = firstn k waits
    /\ traffic_of evs
       = flat_map (fun w => [EvRequest rq; EvSleep w]) (firstn k waits)
         ++ [EvRequest rq]
    /\ List.length (errors_of evs)
       = List.length (filter (fun i => match server (nreq st + i) rq with
                                  | Failed _ => true
                                  | Responded _ => false
                                  end) (seq 0 k)).
Proof.
  induction waits as [| w rest IH]; intros attempt rq st k Hk Hfail Hstop.
  - simpl in Hk. assert (k = 0%nat) by lia. subst k.
    exists [EvRequest rq]. rewrite Nat.add_0_r.
    simpl. rewrite requests_request_run. auto.
  - destruct k as [| k].
    + exists [EvRequest rq]. rewrite Nat.add_0_r in *.
      rewrite retry_loop_ok by (apply Hstop; simpl; lia). auto.
    + assert (H0 : failed (server (nreq st) rq) = true).
      { rewrite <- (Nat.add_0_r (nreq st)). apply Hfail. lia. }
      destruct (retry_loop_failed attempt w rest rq st H0)
        as (logged & Hstep & Ht & Hr & Hs & He).
      rewrite Hstep.
      set (st1 := advance st 1 (EvRequest rq :: logged ++ [EvSleep w])).
      assert (Hn : nreq st1 = S (nreq st)) by (unfold st1; simpl; lia).
      destruct (IH (S attempt) rq st1 k) as (evs & Hrun & Hq & Hsl & Htr & Her).
      * simpl in Hk. lia.
      * intros i Hi. rewrite Hn.
        replace (S (nreq st) + i)%nat with (nreq st + S i)%nat by lia.
        apply Hfail. lia.
      * intros Hlt. rewrite Hn.
        replace (S (nreq st) + k)%nat with (nreq st + S k)%nat by lia.
        apply Hstop. simpl. lia.
      * exists ((EvRequest rq :: logged ++ [EvSleep w]) ++ evs).
        rewrite Hrun, Hn. unfold st1. rewrite advance_advance.
        replace (S (nreq st) + k)%nat with (nreq st + S k)%nat by lia.
        split; [reflexivity |].
        rewrite requests_of_app, sleeps_of_app, traffic_of_app, errors_of_app.
        change (EvRequest rq :: logged ++ [EvSleep w])
          with ([EvRequest rq] ++ logged ++ [EvSleep w]).
        rewrite !requests_of_app, !sleeps_of_app, !traffic_of_app, !errors_of_app.
        rewrite Hq, Hsl, Htr, Ht, Hr, Hs.
        split; [reflexivity |]. split; [reflexivity |]. split; [reflexivity |].
        rewrite !List.length_app, Her, He, count_shift.
        rewrite (filter_ext (fun i => match server (nreq st + S i) rq with
                                      | Failed _ => true
                                      | Responded _ => false
                                      end)
                   (fun i => match server (nreq st1 + i) rq with
                             | Failed _ => true
                             | Responded _ => false
                             end)).
        { rewrite (Nat.add_0_r (nreq st)).
          destruct (server (nreq st) rq); simpl; lia. }
        intros i. rewrite Hn.
        now replace (S (nreq st) + i)%nat with (nreq st + S i)%nat by lia.
Qed.

(** Some attempt ends the loop: the first that does not fail, or the final
    one. *)
Lemma ending_attempt (n : nat) : forall (rq : Request) (m : nat),
  exists k, (k <= m)%nat
    /\ (forall i, (i < k)%nat -> failed (server (n + i) rq) = true)
    /\ ((k < m)%nat -> failed (server (n + k) rq) = false).
Proof.
  intros rq m. induction m as [| m (k & Hk & Hf & Hs)].
  - exists 0%nat. repeat split; intros; lia.
  - destruct (Nat.eq_dec k m) as [-> | Hne].
    + destruct (failed (server (n + m) rq)) eqn:E.
      * exists (S m). repeat split; try lia.
        intros i Hi. destruct (Nat.eq_dec i m) as [-> | ?]; [assumption |].
        apply Hf. lia.
      * exists m. repeat split; auto.
    + exists k. repeat split; auto; try lia.
      intros _. apply Hs. lia.
Qed.

End Retry.

Section Theory.

Variable server : nat -> Request -> Reply.
Variable clock : nat -> Z.
Variable json_loads : list byte -> option json.
Variable json_dumps : json -> string.
Variable utf8_decode : list byte -> option string.

(** *** The monad *)

Lemma bind_val {A B} (m : M A) (f : A -> M B) st a st' :
  m st = (Val a, st') -> bind m f st = f a st'.
Proof. unfold bind. now intros ->. Qed.

Lemma bind_raise {A B} (m : M A) (f : A -> M B) st e st' :
  m st = (Raise e, st') -> bind m f st = (Raise e, st').
Proof. unfold bind. now intros ->. Qed.

Lemma bind_blocked {A B} (m : M A) (f : A -> M B) st st' :
  m st = (Blocked, st') -> bind m f st = (Blocked, st').
Proof. unfold bind. now intros ->. Qed.

Lemma held_less_more (st : State) : held_less (held_more st) = st.
Proof. destruct st as [c t n e]. now destruct c. Qed.

Lemma with_lock_val {A} (body : M A) st a st' :
  acquirable (self st) = true ->
  body (held_more st) = (Val a, st') ->
  with_lock body st = (Val a, held_less st').
Proof. unfold with_lock, held_more, held_less. now intros -> ->. Qed.

Lemma with_lock_raise {A} (body : M A) st e st' :
  acquirable (self st) = true ->
  body (held_more st) = (Raise e, st') ->
  with_lock body st = (Raise e, held_less st').
Proof. unfold with_lock, held_more, held_less. now intros -> ->. Qed.

Lemma with_lock_blocked {A} (body : M A) st :
  acquirable (self st) = false ->
  with_lock body st = (Blocked, st).
Proof. unfold with_lock. now intros ->. Qed.

Lemma acquirable_held_more st :
  acquirable (self (held_more st))
  = match lock (self st) with RLock => true | Lock => false end.
Proof. unfold acquirable. simpl. now destruct (lock (self st)). Qed.

(** *** [is_token_expired] *)

Lemma is_token_expired_unrecorded st :
  acquirable (self st) = true ->
  token_expiry (self st) = None \/ token_expiry (self st) = Some 0 ->
  is_token_expired clock st = (Val true, st).
Proof.
  intros Ha He. unfold is_token_expired.
  erewrite with_lock_val; [now rewrite held_less_more | assumption |].
  unfold bind, get_self. simpl. now destruct He as [-> | ->].
Qed.

Lemma is_token_expired_at st expiry :
  acquirable (self st) = true ->
  token_expiry (self st) = Some expiry -> expiry <> 0 ->
  is_token_expired clock st = (Val (expiry <=? clock (ticks st)), tick st).
Proof.
  intros Ha He Hnz. unfold is_token_expired.
  erewrite with_lock_val; [| assumption |].
  2:{ unfold bind, get_self. simpl. rewrite He.
      apply Z.eqb_neq in Hnz. rewrite Hnz. unfold time_time. reflexivity. }
  f_equal. destruct st as [c t n e]. now destruct c.
Qed.

Lemma is_token_expired_live st :
  acquirable (self st) = true ->
  token_live clock (self st) ->
  is_token_expired clock st = (Val false, tick st).
Proof.
  intros Ha (expiry & He & Hnz & Hlt).
  rewrite (is_token_expired_at st expiry Ha He Hnz).
  specialize (Hlt (ticks st)). apply Z.leb_gt in Hlt. now rewrite Hlt.
Qed.

(** *** The retry wrapper, when the first attempt succeeds *)

Lemma perform_first_ok action url hdrs qp data st r :
  server (nreq st)
    (mkRequest action url hdrs qp data (verify (self st)) (timeout (self st)))
  = Responded r ->
  ok r = true ->
  _perform_request_with_retries server action url hdrs qp data st
  = (Val r, advance st 1 [EvRequest (mkRequest action url hdrs qp data
                                       (verify (self st)) (timeout (self st)))]).
Proof.
  intros Hs Hok. unfold _perform_request_with_retries, bind, get_self.
  destruct (retry_waits (self st)) as [| w rest].
  - simpl. rewrite requests_request_run, Hs. reflexivity.
  - rewrite retry_loop_ok; rewrite Hs; simpl; [reflexivity | now rewrite Hok].
Qed.

(** *** One iteration of the page loop *)

Ltac loop_head Ha Hl Hs Hok :=
  cbn [execute_loop];
  erewrite bind_val; [| apply (is_token_expired_live _ Ha Hl)];
  cbv beta iota;
  erewrite bind_val; [| reflexivity];
  erewrite bind_val; [| reflexivity];
  cbv beta zeta;
  erewrite bind_val; [| apply perform_first_ok; [exact Hs | exact Hok]];
  cbv beta; rewrite Hok; cbv iota.

Lemma content_type_differs (r : Response) (s : string) :
  content_type r <> Some s ->
  match content_type r with Some t => (t =? s)%string | None => false end = false.
Proof.
  intros H. destruct (content_type r) as [t |]; [| reflexivity].
  destruct (String.eqb_spec t s); congruence.
Qed.

Section Iteration.

Variables (fuel : nat) (action endpoint : string) (query_params body_params : json).
Variables (request_headers : option Headers) (force paginated : bool).
Variables (results : list json) (st : State) (r : Response).

Let hdrs := effective_headers (self st) request_headers.
Let rq := data_request json_dumps (self st) action endpoint query_params hdrs
            body_params.

Hypothesis Ha : acquirable (self st) = true.
Hypothesis Hl : token_live clock (self st).
Hypothesis Hs : server (nreq st) rq = Responded r.
Hypothesis Hok : ok r = true.

Lemma iteration_empty_body :
  content r = [] ->
  execute_loop server clock json_loads json_dumps utf8_decode (S fuel) action
    endpoint query_params body_params request_headers force paginated results st
  = (Val RNone, fetched st rq).
Proof.
  intros Hc. loop_head Ha Hl Hs Hok. rewrite Hc. reflexivity.
Qed.

Lemma iteration_gzip :
  content r <> [] ->
  content_type r = Some "application/x-gzip"%string ->
  execute_loop server clock json_loads json_dumps utf8_decode (S fuel) action
    endpoint query_params body_params request_headers force paginated results st
  = (Val (RBytes (content r)), fetched st rq).
Proof.
  intros Hc Ht. loop_head Ha Hl Hs Hok. rewrite Ht.
  destruct (content r); [congruence | reflexivity].
Qed.

Lemma iteration_csv :
  content r <> [] ->
  content_type r = Some "text/csv"%string ->
  execute_loop server clock json_loads json_dumps utf8_decode (S fuel) action
    endpoint query_params body_params request_headers force paginated results st
  = (match utf8_decode (content r) with
     | Some s => Val (RText s)
     | None => Raise UnicodeDecodeError
     end, fetched st rq).
Proof.
  intros Hc Ht. loop_head Ha Hl Hs Hok. rewrite Ht.
  destruct (content r) eqn:E; [congruence |]. cbn.
  now destruct (utf8_decode _).
Qed.

Hypothesis Hc : content r <> [].
Hypothesis Hgz : content_type r <> Some "application/x-gzip"%string.
Hypothesis Hcsv : content_type r <> Some "text/csv"%string.

Ltac to_json :=
  rewrite (content_type_differs r _ Hgz), (content_type_differs r _ Hcsv);
  destruct (content r) eqn:Econtent; [congruence |]; cbv iota.

Lemma iteration_next_page (kv : list (string * json)) (items : list json) (t : json) :
  json_loads (content r) = Some (JObj kv) ->
  lookup "items" kv = Some (JArr items) ->
  lookup "nextPageToken" kv = Some t -> truthy t = true ->
  paginated = true ->
  execute_loop server clock json_loads json_dumps utf8_decode (S fuel) action
    endpoint query_params body_params request_headers force paginated results st
  = execute_loop server clock json_loads json_dumps utf8_decode fuel action
      endpoint query_params (continuation t) (Some hdrs) force true
      (results ++ items) (fetched st rq).
Proof.
  intros Hj Hi Hn Ht ->. loop_head Ha Hl Hs Hok. to_json. rewrite Hj.
  cbn. rewrite Hi. cbn. rewrite Hn, Ht. reflexivity.
Qed.

Lemma iteration_last_page (kv : list (string * json)) (items : list json) :
  json_loads (content r) = Some (JObj kv) ->
  lookup "items" kv = Some (JArr items) ->
  (lookup "nextPageToken" kv = None
   \/ exists t, lookup "nextPageToken" kv = Some t /\ truthy t = false) ->
  paginated = true ->
  execute_loop server clock json_loads json_dumps utf8_decode (S fuel) action
    endpoint query_params body_params request_headers force paginated results st
  = (Val (RList (results ++ items)), fetched st rq).
Proof.
  intros Hj Hi Hn ->. loop_head Ha Hl Hs Hok. to_json. rewrite Hj.
  cbn. rewrite Hi. cbn.
  destruct Hn as [-> | (t & -> & ->)]; reflexivity.
Qed.

Lemma iteration_no_items (kv : list (string * json)) :
  json_loads (content r) = Some (JObj kv) ->
  lookup "items" kv = None ->
  paginated = true ->
  execute_loop server clock json_loads json_dumps utf8_decode (S fuel) action
    endpoint query_params body_params request_headers force paginated results st
  = (Raise (KeyError "items"), fetched st rq).
Proof.
  intros Hj Hi ->. loop_head Ha Hl Hs Hok. to_json. rewrite Hj.
  cbn. rewrite Hi. reflexivity.
Qed.

End Iteration.

(** *** Several pages *)

Lemma effective_headers_given (c c' : Client) (h : option Headers) :
  effective_headers c' (Some (effective_headers c h)) = effective_headers c h.
Proof.
  unfold effective_headers.
  destruct h as [[| x h] |]; reflexivity.
Qed.

Lemma fetched_after_pages st rq rqs :
  after_pages (fetched st rq) rqs = after_pages st (rq :: rqs).
Proof.
  unfold after_pages, fetched, advance, tick; simpl.
  rewrite <- app_assoc. simpl. f_equal; lia.
Qed.

Lemma page_requests_length mkrq : forall pages body,
  List.length (page_requests mkrq body pages) = List.length pages.
Proof.
  induction pages as [| [[r items] t] rest IH]; intros body; simpl; auto.
Qed.

(** The loop goes through pages that each name a next page, and arrives at
    the request that follows them with their items appended. *)
Lemma loop_pages (action endpoint : string) (query_params : json) (force : bool)
    (pages : list Page) :
  forall fuel body request_headers results st,
    acquirable (self st) = true ->
    token_live clock (self st) ->
    served server json_loads
      (data_request json_dumps (self st) action endpoint query_params
         (effective_headers (self st) request_headers))
      (nreq st) body pages ->
    execute_loop server clock json_loads json_dumps utf8_decode
      (List.length pages + fuel) action endpoint query_params body
      request_headers force true results st
    = execute_loop server clock json_loads json_dumps utf8_decode
        fuel action endpoint query_params (body_after body pages)
        (match pages with
         | [] => request_headers
         | _ :: _ => Some (effective_headers (self st) request_headers)
         end)
        force true (results ++ items_of pages)
        (after_pages st
           (page_requests
              (data_request json_dumps (self st) action endpoint query_params
                 (effective_headers (self st) request_headers))
              body pages)).
Proof.
  induction pages as [| [[r items] t] rest IH];
    intros fuel body request_headers results st Ha Hl Hserved.
  - simpl. rewrite app_nil_r. f_equal.
    destruct st. unfold after_pages. simpl. rewrite app_nil_r.
    f_equal; lia.
  - destruct Hserved as (Hs & (kv & (Hok & Hc & Hgz & Hcsv & Hj) & Hi & Hn & Ht) & Hrest).
    cbn [List.length Nat.add].
    rewrite (iteration_next_page _ _ _ _ _ _ _ _ _ _ _ Ha Hl Hs Hok Hc Hgz Hcsv
               kv items t Hj Hi Hn Ht eq_refl).
    rewrite IH; try assumption.
    + cbn [self fetched advance tick].
      rewrite effective_headers_given.
      cbn [body_after page_requests items_of flat_map fst snd].
      rewrite fetched_after_pages, <- app_assoc.
      f_equal. now destruct rest.
    + cbn [self fetched advance tick]. rewrite effective_headers_given.
      cbn [nreq fetched advance tick]. now rewrite Nat.add_1_r.
Qed.

Lemma requests_of_map (rqs : list Request) : requests_of (map EvRequest rqs) = rqs.
Proof. induction rqs as [| rq rqs IH]; simpl; [| rewrite IH]; reflexivity. Qed.

(** The fetch that follows [pages] finds the client as it was: same
    headers, and the request counter moved by one per page. *)
Section AfterPages.

Variables (action endpoint : string) (query_params : json).
Variables (request_headers : option Headers) (st : State).
Variables (body : json) (pages : list Page).

Let hdrs := effective_headers (self st) request_headers.
Let mkrq := data_request json_dumps (self st) action endpoint query_params hdrs.
Let st' := after_pages st (page_requests mkrq body pages).
Let request_headers' :=
  match pages with [] => request_headers | _ :: _ => Some hdrs end.

Lemma after_pages_request (b : json) :
  data_request json_dumps (self st') action endpoint query_params
    (effective_headers (self st') request_headers') b
  = mkrq b.
Proof.
  unfold mkrq, request_headers', st', hdrs. cbn [self after_pages].
  destruct pages; [reflexivity | now rewrite effective_headers_given].
Qed.

Lemma after_pages_served (r : Response) :
  server (nreq st + List.length pages) (mkrq (body_after body pages)) = Responded r ->
  server (nreq st')
    (data_request json_dumps (self st') action endpoint query_params
       (effective_headers (self st') request_headers') (body_after body pages))
  = Responded r.
Proof.
  rewrite after_pages_request. unfold st'. cbn [nreq after_pages].
  now rewrite page_requests_length.
Qed.

Lemma after_pages_fetched_requests (b : json) :
  requests_of (events (fetched st' (mkrq b)))
  = requests_of (events st) ++ page_requests mkrq body pages ++ [mkrq b].
Proof.
  unfold st', fetched, advance, tick, after_pages. cbn [events].
  rewrite !requests_of_app, requests_of_map, <- app_assoc. reflexivity.
Qed.

End AfterPages.

(** *** The head of [execute] *)

Lemma suppress_warnings_run st :
  suppress_warnings_when_verify_false st = (Val tt, warned st).
Proof.
  unfold suppress_warnings_when_verify_false, warned, bind, get_self.
  destruct (verify (self st)); [reflexivity |].
  unfold emit, advance. now rewrite Nat.add_0_r.
Qed.

Lemma warned_self st : self (warned st) = self st.
Proof. unfold warned. now destruct (verify (self st)). Qed.

Lemma warned_nreq st : nreq (warned st) = nreq st.
Proof. unfold warned. destruct (verify (self st)); simpl; lia. Qed.

Lemma warned_ticks st : ticks (warned st) = ticks st.
Proof. unfold warned. now destruct (verify (self st)). Qed.

Lemma warned_requests st : requests_of (events (warned st)) = requests_of (events st).
Proof.
  unfold warned. destruct (verify (self st)); [reflexivity |].
  simpl. rewrite requests_of_app. simpl. now rewrite app_nil_r.
Qed.

Lemma entered_self st : self (entered st) = self st.
Proof. apply warned_self. Qed.

(** With a re-entrant lock and a live token the check at the head of
    [execute] reads the clock once and changes nothing else. *)
Lemma ensure_token_live st :
  lock (self st) = RLock ->
  truthy (token (self st)) = true ->
  token_live clock (self st) ->
  ensure_token server clock json_loads json_dumps st = (Val tt, tick st).
Proof.
  intros Hk Ht Hl. unfold ensure_token.
  assert (Ha : acquirable (self st) = true) by (unfold acquirable; now rewrite Hk).
  erewrite with_lock_val; [| exact Ha |].
  2:{ erewrite bind_val; [| reflexivity]. cbn [self held_more with_self].
      replace (token (set_lock_held (S (lock_held (self st))) (self st)))
        with (token (self st)) by now destruct (self st).
      rewrite Ht. cbn [negb].
      erewrite bind_val.
      2:{ apply is_token_expired_live.
          - rewrite acquirable_held_more. now rewrite Hk.
          - destruct Hl as (e & He & Hnz & Hlt). exists e.
            repeat split; auto. }
      reflexivity. }
  f_equal. destruct st as [c t n e]. now destruct c.
Qed.

Lemma execute_enters fuel action endpoint query_params body_params request_headers
    force paginated st :
  lock (self st) = RLock ->
  truthy (token (self st)) = true ->
  token_live clock (self st) ->
  execute server clock json_loads json_dumps utf8_decode fuel action endpoint
    query_params body_params request_headers force paginated st
  = execute_loop server clock json_loads json_dumps utf8_decode fuel action
      endpoint query_params body_params request_headers force paginated []
      (entered st).
Proof.
  intros Hk Ht Hl. unfold execute, entered.
  erewrite bind_val; [| apply suppress_warnings_run].
  erewrite bind_val; [reflexivity |].
  apply ensure_token_live; now rewrite warned_self.
Qed.

(** *** Pagination *)

(** The page loop on a run of pages of which the last names no next page. *)
Lemma loop_collects action endpoint query_params body_params request_headers force
    fuel results st (pages : list Page) (last : Response) (items : list json) :
  let mkrq := data_request json_dumps (self st) action endpoint query_params
                (effective_headers (self st) request_headers) in
  acquirable (self st) = true ->
  token_live clock (self st) ->
  served server json_loads mkrq (nreq st) body_params pages ->
  server (nreq st + List.length pages) (mkrq (body_after body_params pages))
  = Responded last ->
  page json_loads last items None ->
  (List.length pages < fuel)%nat ->
  exists st',
    execute_loop server clock json_loads json_dumps utf8_decode fuel action endpoint
      query_params body_params request_headers force true results st
    = (Val (RList (results ++ items_of pages ++ items)), st')
    /\ self st' = self st
    /\ requests_of (events st')
       = requests_of (events st) ++ page_requests mkrq body_params pages
         ++ [mkrq (body_after body_params pages)].
Proof.
  intros mkrq Ha Hl Hserved Hlast (kv & (Hok & Hc & Hgz & Hcsv & Hj) & Hi & Hn) Hfuel.
  replace fuel with (List.length pages + S (fuel - S (List.length pages)))%nat by lia.
  rewrite loop_pages by assumption.
  eexists. split; [| split].
  - erewrite iteration_last_page; try eassumption; try reflexivity.
    + now rewrite app_assoc.
    + now apply after_pages_served.
  - reflexivity.
  - rewrite after_pages_request. apply after_pages_fetched_requests.
Qed.

(** *** Dispatch on a successful response *)

Lemma iteration_returns_body fuel action endpoint query_params body_params
    request_headers force paginated results st r :
  acquirable (self st) = true ->
  token_live clock (self st) ->
  server (nreq st)
    (data_request json_dumps (self st) action endpoint query_params
       (effective_headers (self st) request_headers) body_params)
  = Responded r ->
  ok r = true ->
  returns_body utf8_decode
    (fst (execute_loop server clock json_loads json_dumps utf8_decode (S fuel)
            action endpoint query_params body_params request_headers force
            paginated results st)) r.
Proof.
  intros Ha Hl Hs Hok. repeat split.
  - intros Hc. now erewrite iteration_empty_body by eassumption.
  - intros Hc Ht. now erewrite iteration_gzip by eassumption.
  - intros Hc Ht. now erewrite iteration_csv by eassumption.
Qed.

(** *** A page that is not a page *)

Section LastResponse.

Variables (action endpoint : string) (query_params body_params : json).
Variables (request_headers : option Headers) (force : bool) (fuel : nat).
Variables (results : list json) (st : State) (pages : list Page) (r : Response).

Let mkrq := data_request json_dumps (self st) action endpoint query_params
              (effective_headers (self st) request_headers).

Hypothesis Ha : acquirable (self st) = true.
Hypothesis Hl : token_live clock (self st).
Hypothesis Hserved : served server json_loads mkrq (nreq st) body_params pages.
Hypothesis Hlast :
  server (nreq st + List.length pages) (mkrq (body_after body_params pages))
  = Responded r.
Hypothesis Hok : ok r = true.
Hypothesis Hfuel : (List.length pages < fuel)%nat.

Lemma loop_pages_returns_body :
  returns_body utf8_decode
    (fst (execute_loop server clock json_loads json_dumps utf8_decode fuel action
            endpoint query_params body_params request_headers force true
            results st)) r.
Proof.
  replace fuel with (List.length pages + S (fuel - S (List.length pages)))%nat by lia.
  rewrite loop_pages by assumption.
  apply iteration_returns_body; try assumption.
  now apply after_pages_served.
Qed.

Lemma loop_pages_no_items (kv : list (string * json)) :
  json_response json_loads r (JObj kv) ->
  lookup "items" kv = None ->
  fst (execute_loop server clock json_loads json_dumps utf8_decode fuel action
         endpoint query_params body_params request_headers force true results st)
  = Raise (KeyError "items").
Proof.
  intros (_ & Hc & Hgz & Hcsv & Hj) Hi.
  replace fuel with (List.length pages + S (fuel - S (List.length pages)))%nat by lia.
  rewrite loop_pages by assumption.
  erewrite iteration_no_items; try eassumption; try reflexivity.
  now apply after_pages_served.
Qed.

End LastResponse.

(** *** The event log only grows *)

Lemma extends_refl st : extends st st.
Proof. exists []. now rewrite app_nil_r. Qed.

Lemma extends_trans st1 st2 st3 : extends st1 st2 -> extends st2 st3 -> extends st1 st3.
Proof.
  intros (e1 & H1) (e2 & H2). exists (e1 ++ e2). now rewrite H2, H1, app_assoc.
Qed.

Lemma grows_ret {A} (a : A) : grows (ret a).
Proof. intros st. apply extends_refl. Qed.

Lemma grows_raise {A} (e : exn) : grows (@raise A e).
Proof. intros st. apply extends_refl. Qed.

Lemma grows_bind {A B} (m : M A) (f : A -> M B) :
  grows m -> (forall a, grows (f a)) -> grows (bind m f).
Proof.
  intros Hm Hf st. unfold bind. specialize (Hm st).
  destruct (m st) as [[a | e | |] st']; simpl in *; auto.
  eapply extends_trans; [exact Hm | apply Hf].
Qed.

Lemma grows_emit (e : Event) : grows (emit e).
Proof. intros st. now exists [e]. Qed.

Lemma grows_get_self : grows get_self.
Proof. intros st. apply extends_refl. Qed.

Lemma grows_modify_self f : grows (modify_self f).
Proof. intros st. exists []. simpl. now rewrite app_nil_r. Qed.

Lemma grows_time_time : grows (time_time clock).
Proof. intros st. exists []. simpl. now rewrite app_nil_r. Qed.

Lemma grows_with_lock {A} (body : M A) : grows body -> grows (with_lock body).
Proof.
  intros Hb st. unfold with_lock.
  destruct (acquirable (self st)); [| apply extends_refl].
  specialize (Hb (with_self (fun c => set_lock_held (S (lock_held c)) c) st)).
  destruct (body _) as [[a | e | |] st']; simpl in *; exact Hb.
Qed.

Lemma grows_requests_request rq : grows (requests_request server rq).
Proof.
  intros st. rewrite requests_request_run. now exists [EvRequest rq].
Qed.

Lemma grows_try_except {A} (m : M A) (h : string -> M A) :
  grows m -> (forall e, grows (h e)) -> grows (try_except_RequestException m h).
Proof.
  intros Hm Hh st. unfold try_except_RequestException. specialize (Hm st).
  destruct (m st) as [[a | [] | |] st']; simpl in *; auto.
  eapply extends_trans; [exact Hm | apply Hh].
Qed.

Ltac grows_step :=
  first
    [ apply grows_ret | apply grows_raise | apply grows_emit
    | apply grows_get_self | apply grows_modify_self | apply grows_time_time
    | apply grows_requests_request
    | apply grows_with_lock
    | apply grows_try_except; [| intros ?]
    | apply grows_bind; [| intros ?]
    | match goal with
      | |- grows (if ?b then _ else _) => destruct b
      | |- grows (match ?x with _ => _ end) => destruct x
      | |- grows (let _ := _ in _) => cbv zeta
      end ].

Lemma grows_retry_loop waits : forall attempt rq, grows (retry_loop server attempt waits rq).
Proof.
  induction waits as [| w rest IH]; intros attempt rq; simpl.
  - apply grows_requests_request.
  - repeat (first [apply IH | unfold time_sleep, logger_error; grows_step]).
Qed.

Lemma grows_perform action url hdrs qp data :
  grows (_perform_request_with_retries server action url hdrs qp data).
Proof.
  unfold _perform_request_with_retries.
  apply grows_bind; [apply grows_get_self | intros c; apply grows_retry_loop].
Qed.

Lemma grows_suppress : grows suppress_warnings_when_verify_false.
Proof. unfold suppress_warnings_when_verify_false. repeat grows_step. Qed.

Lemma grows_is_token_expired : grows (is_token_expired clock).
Proof. unfold is_token_expired. repeat grows_step. Qed.

Lemma grows_store_token r : grows (store_token clock json_loads r).
Proof.
  unfold store_token, loads_or_raise, get_method. repeat grows_step.
Qed.

Lemma grows_extend_login : grows (extend_login server clock json_loads).
Proof.
  unfold extend_login, error_and_exit.
  repeat (first [apply grows_suppress | apply grows_perform | apply grows_store_token
                | grows_step]).
Qed.

Lemma grows_execute_loop fuel :
  forall action endpoint query_params body_params request_headers force paginated
         results,
    grows (execute_loop server clock json_loads json_dumps utf8_decode fuel action
             endpoint query_params body_params request_headers force paginated
             results).
Proof.
  induction fuel as [| fuel IH]; intros; simpl.
  - intros st. apply extends_refl.
  - unfold error_and_exit, logger_error, page_items.
    repeat (first [apply IH | apply grows_is_token_expired | apply grows_extend_login
                  | apply grows_perform | grows_step]).
Qed.

(** *** The retry wrapper *)

(** The wrapper only sends requests and writes to the log. *)
Lemma perform_state action url hdrs qp data st :
  exists n evs,
    snd (_perform_request_with_retries server action url hdrs qp data st)
    = advance st n evs.
Proof.
  unfold _perform_request_with_retries, bind, get_self.
  set (rq := mkRequest action url hdrs qp data (verify (self st)) (timeout (self st))).
  destruct (ending_attempt server (nreq st) rq (List.length (retry_waits (self st))))
    as (k & Hk & Hf & Hs).
  destruct (retry_loop_run server (retry_waits (self st)) 1 rq st k Hk Hf Hs)
    as (evs & Hrun & _).
  exists (S k), evs. now rewrite Hrun.
Qed.

(** C5.  [_perform_request_with_retries] ends at some attempt [k+1]
    with [k] at most [len(retry_waits)]: the [k] attempts before it failed (a
    response that is not [ok], or a [RequestException]), and it is either
    successful or the final attempt; so there are [len(retry_waits) + 1]
    attempts when none succeeds.  The wrapper returns what that attempt gives
    (a response, or the exception of the final attempt), after sending the same
    request [k+1] times and sleeping [retry_waits[i]] after the failed attempt
    [i+1] and at no other time; each exception of a failed attempt leaves one
    line in the error log. *)
Theorem perform_request_with_retries_attempts action url hdrs qp data st :
  let rq := mkRequest action url hdrs qp data (verify (self st)) (timeout (self st)) in
  let waits := retry_waits (self st) in
  exists k evs,
    (k <= List.length waits)%nat
    /\ (forall i, (i < k)%nat -> failed (server (nreq st + i) rq) = true)
    /\ ((k < List.length waits)%nat -> failed (server (nreq st + k) rq) = false)
    /\ ((forall i, (i <= List.length waits)%nat ->
                   failed (server (nreq st + i) rq) = true) ->
        k = List.length waits)
    /\ _perform_request_with_retries server action url hdrs qp data st
       = (reply_outcome (server (nreq st + k) rq), advance st (S k) evs)
    /\ requests_of evs = repeat rq (S k)
    /\ sleeps_of evs = firstn k waits
    /\ traffic_of evs
       = flat_map (fun w => [EvRequest rq; EvSleep w]) (firstn k waits)
         ++ [EvRequest rq]
    /\ List.length (errors_of evs)
       = List.length (filter (fun i => match server (nreq st + i) rq with
                                       | Failed _ => true
                                       | Responded _ => false
                                       end) (seq 0 k)).
Proof.
  intros rq waits.
  destruct (ending_attempt server (nreq st) rq (List.length waits))
    as (k & Hk & Hf & Hs).
  destruct (retry_loop_run server waits 1 rq st k Hk Hf Hs)
    as (evs & Hrun & Hq & Hsl & Htr & Her).
  exists k, evs. repeat (split; [assumption |]).
  split.
  - intros Hall. destruct (Nat.eq_dec k (List.length waits)) as [| Hne]; [assumption |].
    assert (Hlt : (k < List.length waits)%nat) by lia.
    specialize (Hs Hlt). rewrite Hall in Hs by lia. discriminate.
  - split; [| auto].
    unfold _perform_request_with_retries, bind, get_self. exact Hrun.
Qed.

(** *** [login] and [extend_login] *)

Lemma string_app_assoc (a b c : string) :
  ((a ++ b) ++ c)%string = (a ++ b ++ c)%string.
Proof. induction a as [| x a IH]; simpl; [| rewrite IH]; reflexivity. Qed.

Lemma exit_message_has_status (error_code : Z) (error_message : string) :
  occurs_in (str_int error_code) (exit_message error_code error_message).
Proof.
  exists (nl ++ nl ++ "Status Code: ")%string,
         (nl ++ error_message ++ nl ++ "" ++ nl)%string.
  unfold exit_message. now rewrite !string_app_assoc.
Qed.

Lemma exit_message_has_text (error_code : Z) (url : string) (r : Response) :
  occurs_in (text r) (exit_message error_code (responded_with_an_error url r)).
Proof.
  exists (nl ++ nl ++ "Status Code: " ++ str_int error_code ++ nl
          ++ "API (" ++ url ++ ") responded with an error" ++ nl)%string,
         (nl ++ "" ++ nl)%string.
  unfold exit_message, responded_with_an_error. now rewrite !string_app_assoc.
Qed.

(** Storing the token of a response that decodes to a dict: with a
    [token_limit] the expiry is set; without one the token is assigned, the
    clock is read, and [AttributeError] leaves the block, which releases the
    lock. *)
Lemma store_token_run r kv st :
  acquirable (self st) = true ->
  json_loads (content r) = Some (JObj kv) ->
  store_token clock json_loads r st
  = match token_limit (self st) with
    | Some limit =>
        (Val tt,
         mkState (renewed (self st) (token_field kv) (clock (ticks st) + limit))
           (S (ticks st)) (nreq st) (events st))
    | None =>
        (Raise AttributeError,
         mkState (set_token (token_field kv) (self st))
           (S (ticks st)) (nreq st) (events st))
    end.
Proof.
  intros Ha Hj. unfold store_token.
  destruct (token_limit (self st)) as [limit |] eqn:Hlimit.
  - erewrite with_lock_val; [| exact Ha |].
    2:{ unfold loads_or_raise. rewrite Hj.
        unfold bind, get_method, modify_self, time_time, get_self, ret.
        cbn. rewrite Hlimit. reflexivity. }
    reflexivity.
  - erewrite with_lock_raise; [| exact Ha |].
    2:{ unfold loads_or_raise. rewrite Hj.
        unfold bind, get_method, modify_self, time_time, get_self, ret.
        cbn. rewrite Hlimit. reflexivity. }
    reflexivity.
Qed.

(** With the lock held and not re-entrant, storing the token blocks. *)
Lemma store_token_blocks r st :
  acquirable (self st) = false ->
  store_token clock json_loads r st = (Blocked, st).
Proof. intros Ha. unfold store_token. now apply with_lock_blocked. Qed.

(** *** The first request of a call *)

Lemma requests_first_bind {A B} (m : M A) (f : A -> M B) st rq :
  requests_first m st rq -> (forall a, grows (f a)) ->
  requests_first (bind m f) st rq.
Proof.
  intros (rest & Hm) Hf. unfold requests_first, bind.
  destruct (m st) as [[a | e | |] st1]; simpl in *; try (now exists rest).
  destruct (Hf a st1) as (evs & Hev). rewrite Hev, requests_of_app, Hm.
  exists (rest ++ requests_of evs). now rewrite <- app_assoc.
Qed.

Lemma requests_first_skip {A B} (m : M A) (f : A -> M B) st a st1 rq :
  m st = (Val a, st1) ->
  requests_of (events st1) = requests_of (events st) ->
  requests_first (f a) st1 rq ->
  requests_first (bind m f) st rq.
Proof.
  intros Hm Hsame (rest & Hf). exists rest.
  erewrite bind_val by exact Hm. now rewrite Hf, Hsame.
Qed.

Lemma requests_first_with_lock {A} (body : M A) st rq :
  acquirable (self st) = true ->
  requests_first body (held_more st) rq ->
  requests_first (with_lock body) st rq.
Proof.
  intros Ha (rest & Hb). exists rest. unfold with_lock. rewrite Ha.
  fold (held_more st).
  destruct (body (held_more st)) as [[a | e | |] st1]; simpl in *; exact Hb.
Qed.

Lemma requests_first_try {A} (m : M A) (h : string -> M A) st rq :
  requests_first m st rq -> (forall e, grows (h e)) ->
  requests_first (try_except_RequestException m h) st rq.
Proof.
  intros (rest & Hm) Hh. unfold requests_first, try_except_RequestException.
  destruct (m st) as [[a | [] | |] st1]; simpl in *; try (now exists rest).
  destruct (Hh e st1) as (evs & Hev). rewrite Hev, requests_of_app, Hm.
  exists (rest ++ requests_of evs). now rewrite <- app_assoc.
Qed.

Lemma requests_first_request rq st :
  requests_first (requests_request server rq) st rq.
Proof.
  exists []. rewrite requests_request_run. simpl.
  now rewrite requests_of_app.
Qed.

Lemma requests_first_retry_loop waits attempt rq st :
  requests_first (retry_loop server attempt waits rq) st rq.
Proof.
  destruct waits as [| w rest]; simpl.
  - apply requests_first_request.
  - apply requests_first_bind.
    + apply requests_first_try.
      * apply requests_first_bind; [apply requests_first_request |].
        intros a. apply grows_ret.
      * intros e. unfold logger_error. repeat grows_step.
    + intros [response |]; unfold time_sleep;
        repeat (first [apply grows_retry_loop | grows_step]).
Qed.

Lemma requests_first_perform action url hdrs qp data st :
  requests_first (_perform_request_with_retries server action url hdrs qp data) st
    (mkRequest action url hdrs qp data (verify (self st)) (timeout (self st))).
Proof.
  unfold _perform_request_with_retries.
  eapply requests_first_skip; [reflexivity | reflexivity |].
  apply requests_first_retry_loop.
Qed.

Lemma requests_first_login st :
  requests_first (login server clock json_loads json_dumps None) st
    (login_request json_dumps (self st)).
Proof.
  unfold login.
  eapply requests_first_skip;
    [apply suppress_warnings_run | apply warned_requests |].
  eapply requests_first_skip; [reflexivity | reflexivity |].
  unfold login_request. rewrite <- (warned_self st).
  apply requests_first_bind; [apply requests_first_perform |].
  intros r. unfold error_and_exit.
  repeat (first [apply grows_store_token | grows_step]).
Qed.

(** The token check of [execute] starts with the login request when the
    token is missing, and, with a re-entrant lock, when no expiry is
    recorded. *)
Lemma requests_first_ensure_token st :
  acquirable (self st) = true ->
  truthy (token (self st)) = false
  \/ (lock (self st) = RLock
      /\ (token_expiry (self st) = None \/ token_expiry (self st) = Some 0)) ->
  requests_first (ensure_token server clock json_loads json_dumps) st
    (login_request json_dumps (self st)).
Proof.
  intros Ha Hcase. unfold ensure_token.
  apply requests_first_with_lock; [exact Ha |].
  eapply requests_first_skip; [reflexivity | reflexivity |].
  change (token (self (held_more st))) with (token (self st)).
  change (login_request json_dumps (self st))
    with (login_request json_dumps (self (held_more st))).
  destruct (truthy (token (self st))) eqn:Et; cbn [negb].
  - destruct Hcase as [Hf | (Hk & He)]; [discriminate |].
    eapply requests_first_skip;
      [apply is_token_expired_unrecorded | reflexivity | apply requests_first_login].
    + rewrite acquirable_held_more. now rewrite Hk.
    + exact He.
  - apply requests_first_login.
Qed.

(** C10.  When no expiry is recorded ([None], or a falsy number),
    [is_token_expired] returns [True] without reading the clock, given that
    it can take the lock.  On a client without a token (as [__init__] leaves
    it), and with a re-entrant lock also on one with a token, the first
    request [execute] sends is then the login POST: no data request comes
    before it. *)
Theorem unrecorded_expiry_forces_login fuel action endpoint query_params body_params
    request_headers force paginated st :
  acquirable (self st) = true ->
  token_expiry (self st) = None \/ token_expiry (self st) = Some 0 ->
  is_token_expired clock st = (Val true, st)
  /\ (truthy (token (self st)) = false \/ lock (self st) = RLock ->
      requests_first
        (execute server clock json_loads json_dumps utf8_decode fuel action
           endpoint query_params body_params request_headers force paginated)
        st (login_request json_dumps (self st))).
Proof.
  intros Ha He. split; [now apply is_token_expired_unrecorded |].
  intros Hcase. unfold execute.
  eapply requests_first_skip;
    [apply suppress_warnings_run | apply warned_requests |].
  rewrite <- (warned_self st) in *.
  apply requests_first_bind.
  - apply requests_first_ensure_token; [exact Ha |].
    destruct Hcase as [Hf | Hk]; [now left | right; now split].
  - intros _. apply grows_execute_loop.
Qed.

(** *** A data request that fails *)

(** When every attempt fails with a response, the wrapper hands back the
    response of the final attempt. *)
Lemma perform_all_failed action url hdrs qp data st :
  always_unavailable server ->
  exists r evs,
    _perform_request_with_retries server action url hdrs qp data st
    = (Val r, advance st (S (List.length (retry_waits (self st)))) evs)
    /\ ok r = false.
Proof.
  intros Hdown. unfold _perform_request_with_retries, bind, get_self.
  set (rq := mkRequest action url hdrs qp data (verify (self st)) (timeout (self st))).
  set (waits := retry_waits (self st)).
  destruct (retry_loop_run server waits 1 rq st (List.length waits))
    as (evs & Hrun & _).
  - lia.
  - intros i _. destruct (Hdown (nreq st + i)%nat rq) as (r & -> & Hr).
    simpl. now rewrite Hr.
  - lia.
  - destruct (Hdown (nreq st + List.length waits)%nat rq) as (r & Hr & Hnok).
    exists r, evs. rewrite Hrun, Hr. now split.
Qed.

(** The [else] branch of the loop ([cspm.py] lines 133-134) writes a log
    line and goes round again with the same body and results. *)
Lemma iteration_error_response fuel action endpoint query_params body_params
    request_headers force paginated results st :
  acquirable (self st) = true ->
  token_live clock (self st) ->
  always_unavailable server ->
  exists st',
    execute_loop server clock json_loads json_dumps utf8_decode (S fuel) action
      endpoint query_params body_params request_headers force paginated results st
    = execute_loop server clock json_loads json_dumps utf8_decode fuel action
        endpoint query_params body_params
        (Some (effective_headers (self st) request_headers)) force paginated
        results st'
    /\ self st' = self st.
Proof.
  intros Ha Hl Hdown.
  destruct (perform_all_failed action
              ("https://" ++ api (self st) ++ "/" ++ endpoint)%string
              (effective_headers (self st) request_headers) query_params
              (if truthy body_params then Some (json_dumps body_params) else None)
              (tick st) Hdown) as (r & evs & Hperform & Hnok).
  eexists. split.
  - cbn [execute_loop].
    erewrite bind_val; [| apply (is_token_expired_live _ Ha Hl)].
    cbv beta iota.
    erewrite bind_val; [| reflexivity].
    erewrite bind_val; [| reflexivity].
    cbv beta zeta.
    erewrite bind_val; [| exact Hperform].
    cbv beta. rewrite Hnok. cbv iota.
    erewrite bind_val; [| reflexivity].
    reflexivity.
  - reflexivity.
Qed.

Lemma loop_never_returns action endpoint query_params body_params force paginated
    results fuel :
  forall request_headers st,
    acquirable (self st) = true ->
    token_live clock (self st) ->
    always_unavailable server ->
    fst (execute_loop server clock json_loads json_dumps utf8_decode fuel action
           endpoint query_params body_params request_headers force paginated
           results st)
    = OutOfFuel.
Proof.
  induction fuel as [| fuel IH]; intros request_headers st Ha Hl Hdown.
  - reflexivity.
  - destruct (iteration_error_response fuel action endpoint query_params
                body_params request_headers force paginated results st Ha Hl Hdown)
      as (st' & -> & Hself).
    apply IH; rewrite ?Hself; assumption.
Qed.

(** *** The lock taken twice *)

(** With a [threading.Lock], the token check of [execute] blocks in
    [is_token_expired] as soon as there is a token to check. *)
Lemma ensure_token_blocks st :
  lock (self st) = Lock ->
  acquirable (self st) = true ->
  truthy (token (self st)) = true ->
  ensure_token server clock json_loads json_dumps st = (Blocked, held_more st).
Proof.
  intros Hk Ha Ht. unfold ensure_token, with_lock. rewrite Ha.
  fold (held_more st).
  erewrite bind_val; [| reflexivity].
  change (token (self (held_more st))) with (token (self st)).
  rewrite Ht. cbn [negb].
  erewrite bind_blocked; [reflexivity |].
  unfold is_token_expired. apply with_lock_blocked.
  rewrite acquirable_held_more. now rewrite Hk.
Qed.

(** C1, on the code.  While every attempt of the data request gets a
    response that is not [ok], the page loop never returns: for every amount
    of fuel it is still running, having logged the error and sent the same
    request again.  So does [execute] with a re-entrant lock; with the
    [threading.Lock] of [pc_lib_api.py] it blocks in its token check before
    the first request. *)
Theorem failed_data_request_never_returns
    action endpoint query_params body_params request_headers force paginated
    results st :
  acquirable (self st) = true ->
  token_live clock (self st) ->
  always_unavailable server ->
  forall fuel,
    fst (execute_loop server clock json_loads json_dumps utf8_decode fuel action
           endpoint query_params body_params request_headers force paginated
           results st)
    = OutOfFuel
    /\ (truthy (token (self st)) = true ->
        fst (execute server clock json_loads json_dumps utf8_decode fuel action
               endpoint query_params body_params request_headers force paginated st)
        = match lock (self st) with
          | RLock => OutOfFuel
          | Lock => Blocked
          end).
Proof.
  intros Ha Hl Hdown fuel. split.
  - now apply loop_never_returns.
  - intros Ht. destruct (lock (self st)) eqn:Hk.
    + unfold execute.
      erewrite bind_val; [| apply suppress_warnings_run].
      erewrite bind_blocked; [reflexivity |].
      apply ensure_token_blocks; now rewrite warned_self.
    + rewrite execute_enters by assumption.
      apply loop_never_returns; rewrite ?entered_self; assumption.
Qed.

(** The wrapper ends with a response or with the exception of its final
    attempt, and touches nothing but the request counter and the log. *)
Lemma perform_outcome action url hdrs qp data st :
  exists rep n evs,
    _perform_request_with_retries server action url hdrs qp data st
    = (reply_outcome rep, advance st n evs).
Proof.
  unfold _perform_request_with_retries, bind, get_self.
  set (rq := mkRequest action url hdrs qp data (verify (self st)) (timeout (self st))).
  destruct (ending_attempt server (nreq st) rq (List.length (retry_waits (self st))))
    as (k & Hk & Hf & Hs).
  destruct (retry_loop_run server (retry_waits (self st)) 1 rq st k Hk Hf Hs)
    as (evs & Hrun & _).
  now exists (server (nreq st + k)%nat rq), (S k), evs.
Qed.

(** [login] called with a [threading.Lock] already held: it blocks when
    it comes to store the token, and raises otherwise. *)
Lemma login_under_lock url st :
  acquirable (self st) = false ->
  exists st',
    (login server clock json_loads json_dumps url st = (Blocked, st')
     \/ exists e, login server clock json_loads json_dumps url st = (Raise e, st'))
    /\ self st' = self st.
Proof.
  intros Ha. unfold login.
  erewrite bind_val; [| apply suppress_warnings_run].
  erewrite bind_val; [| reflexivity].
  match goal with
  | |- context [bind (_perform_request_with_retries server ?a ?u ?h ?q ?d) _ ?s] =>
      destruct (perform_outcome a u h q d s) as (rep & n & evs & Hperform)
  end.
  exists (advance (warned st) n evs).
  assert (Hself : self (advance (warned st) n evs) = self st)
    by (simpl; apply warned_self).
  split; [| exact Hself].
  destruct rep as [r | e]; simpl in Hperform.
  - erewrite bind_val; [| exact Hperform].
    destruct (ok r).
    + left. erewrite bind_blocked; [reflexivity |].
      apply store_token_blocks. now rewrite Hself.
    + right. eexists. erewrite bind_raise; [reflexivity |]. reflexivity.
  - right. eexists. erewrite bind_raise; [reflexivity | exact Hperform].
Qed.

Lemma ensure_token_under_plain_lock st :
  lock (self st) = Lock ->
  exists st',
    (ensure_token server clock json_loads json_dumps st = (Blocked, st')
     \/ exists e, ensure_token server clock json_loads json_dumps st = (Raise e, st'))
    /\ token (self st') = token (self st)
    /\ token_expiry (self st') = token_expiry (self st).
Proof.
  intros Hk. destruct (acquirable (self st)) eqn:Ha.
  - destruct (truthy (token (self st))) eqn:Ht.
    + exists (held_more st). rewrite ensure_token_blocks by assumption.
      split; [now left | now split].
    + destruct (login_under_lock None (held_more st)) as (s1 & Hlogin & Hself).
      { rewrite acquirable_held_more. now rewrite Hk. }
      unfold ensure_token, with_lock. rewrite Ha. fold (held_more st).
      erewrite bind_val; [| reflexivity].
      change (token (self (held_more st))) with (token (self st)).
      rewrite Ht. cbn [negb].
      destruct Hlogin as [-> | (e & ->)].
      * exists s1. split; [now left |]. now rewrite Hself.
      * exists (held_less s1). split; [right; now exists e |].
        unfold held_less. simpl. now rewrite Hself.
  - exists st. unfold ensure_token. rewrite with_lock_blocked by assumption.
    split; [now left | now split].
Qed.

(** C8, on the code.  On a client whose lock is the [threading.Lock] that
    [pc_lib_api.py] makes, [execute] never gets past its token check: it
    blocks on the lock it holds, or leaves with the exception of a failed
    login, and in no case stores a token.  In particular, on a client without
    a token whose login POST is answered [ok], it blocks when [login] comes to
    store the token. *)
Theorem execute_blocks_on_its_own_lock
    fuel action endpoint query_params body_params request_headers force paginated st :
  lock (self st) = Lock ->
  (exists st',
      (execute server clock json_loads json_dumps utf8_decode fuel action endpoint
         query_params body_params request_headers force paginated st
       = (Blocked, st')
       \/ exists e,
           execute server clock json_loads json_dumps utf8_decode fuel action
             endpoint query_params body_params request_headers force paginated st
           = (Raise e, st'))
      /\ token (self st') = token (self st)
      /\ token_expiry (self st') = token_expiry (self st))
  /\ (lock_held (self st) = 0%nat ->
      truthy (token (self st)) = false ->
      forall r,
        server (nreq st) (login_request json_dumps (self st)) = Responded r ->
        ok r = true ->
        fst (execute server clock json_loads json_dumps utf8_decode fuel action
               endpoint query_params body_params request_headers force paginated st)
        = Blocked).
Proof.
  intros Hk. split.
  - destruct (ensure_token_under_plain_lock (warned st)) as (st' & Hrun & Ht & He).
    { now rewrite warned_self. }
    rewrite warned_self in Ht, He.
    exists st'. split; [| now split].
    unfold execute.
    erewrite bind_val; [| apply suppress_warnings_run].
    destruct Hrun as [Hrun | (e & Hrun)].
    + left. now erewrite bind_blocked by exact Hrun.
    + right. exists e. now erewrite bind_raise by exact Hrun.
  - intros Hfree Ht r Hs Hok. unfold execute.
    erewrite bind_val; [| apply suppress_warnings_run].
    erewrite bind_blocked; [reflexivity |].
    unfold ensure_token, with_lock.
    assert (Ha : acquirable (self (warned st)) = true).
    { rewrite warned_self. unfold acquirable. now rewrite Hk, Hfree. }
    rewrite Ha. fold (held_more (warned st)).
    erewrite bind_val; [| reflexivity].
    change (token (self (held_more (warned st)))) with (token (self (warned st))).
    rewrite warned_self, Ht. cbn [negb].
    unfold login.
    erewrite bind_val; [| apply suppress_warnings_run].
    erewrite bind_val; [| reflexivity].
    erewrite bind_val.
    2:{ apply perform_first_ok; [| exact Hok].
        rewrite warned_nreq. change (nreq (held_more (warned st))) with (nreq (warned st)).
        rewrite warned_nreq, warned_self.
        change (self (held_more (warned st)))
          with (set_lock_held (S (lock_held (self (warned st)))) (self (warned st))).
        rewrite warned_self. exact Hs. }
    rewrite Hok.
    erewrite bind_blocked; [reflexivity |].
    apply store_token_blocks.
    cbn [self advance]. rewrite warned_self.
    rewrite acquirable_held_more, warned_self. now rewrite Hk.
Qed.

End Theory.

(** ** Sample runs *)

Ltac token_live_until expiry :=
  exists expiry; repeat split; try discriminate; try (intros; reflexivity).

Ltac is_page kv :=
  exists kv; repeat split; try discriminate; try reflexivity.

(** Every data request answered 503: the loop is still running after 1000
    rounds; [execute] blocks with the plain lock and keeps running with a
    re-entrant one. *)
Lemma failed_data_request_never_returns_witness :
  fst (execute_loop (Sample.scripted []) (Sample.steady 1000) Sample.loads
         Sample.dumps Sample.decode 1000 "GET" "resources" JNull JNull None
         false true [] (Sample.start (Sample.logged_in Lock)))
  = OutOfFuel
  /\ fst (execute (Sample.scripted []) (Sample.steady 1000) Sample.loads
            Sample.dumps Sample.decode 1000 "GET" "resources" JNull JNull None
            false true (Sample.start (Sample.logged_in Lock)))
     = Blocked
  /\ fst (execute (Sample.scripted []) (Sample.steady 1000) Sample.loads
            Sample.dumps Sample.decode 1000 "GET" "resources" JNull JNull None
            false true (Sample.start (Sample.logged_in RLock)))
     = OutOfFuel.
Proof.
  assert (Hdown : always_unavailable (Sample.scripted [])).
  { intros n rq. exists Sample.unavailable.
    split; [destruct n; reflexivity | reflexivity]. }
  assert (Hlive : forall kind, token_live (Sample.steady 1000) (Sample.logged_in kind))
    by (intros kind; token_live_until 1590).
  pose proof (failed_data_request_never_returns (Sample.scripted [])
                (Sample.steady 1000) Sample.loads Sample.dumps Sample.decode
                "GET" "resources" JNull JNull None false true []
                (Sample.start (Sample.logged_in Lock))
                eq_refl (Hlive Lock) Hdown 1000%nat) as [Hloop Hplain].
  pose proof (failed_data_request_never_returns (Sample.scripted [])
                (Sample.steady 1000) Sample.loads Sample.dumps Sample.decode
                "GET" "resources" JNull JNull None false true []
                (Sample.start (Sample.logged_in RLock))
                eq_refl (Hlive RLock) Hdown 1000%nat) as [_ Hreentrant].
  split; [exact Hloop |].
  split; [exact (Hplain eq_refl) | exact (Hreentrant eq_refl)].
Defined.

(** A first call on a fresh client whose login is answered with a token:
    [execute] blocks. *)
Lemma execute_blocks_on_its_own_lock_witness :
  fst (execute (Sample.scripted [Responded (Sample.ok_json "{token:T1}")])
         (Sample.steady 1000) Sample.loads Sample.dumps Sample.decode
         5 "GET" "resources" JNull JNull None false true
         (Sample.start Sample.fresh))
  = Blocked.
Proof.
  exact (proj2 (execute_blocks_on_its_own_lock
                  (Sample.scripted [Responded (Sample.ok_json "{token:T1}")])
                  (Sample.steady 1000) Sample.loads Sample.dumps Sample.decode
                  5 "GET" "resources" JNull JNull None false true
                  (Sample.start Sample.fresh) eq_refl)
           eq_refl eq_refl (Sample.ok_json "{token:T1}") eq_refl eq_refl).
Defined.

(** On a fresh client nothing is recorded, and the first request is the
    login. *)
Lemma unrecorded_expiry_forces_login_witness :
  is_token_expired (Sample.steady 1000) (Sample.start Sample.fresh)
  = (Val true, Sample.start Sample.fresh)
  /\ requests_first
       (execute (Sample.scripted []) (Sample.steady 1000) Sample.loads
          Sample.dumps Sample.decode 5 "GET" "resources" JNull JNull None
          false false)
       (Sample.start Sample.fresh)
       (login_request Sample.dumps Sample.fresh).
Proof.
  destruct (unrecorded_expiry_forces_login (Sample.scripted [])
              (Sample.steady 1000) Sample.loads Sample.dumps Sample.decode
              5 "GET" "resources" JNull JNull None false false
              (Sample.start Sample.fresh)) as [Hexpired Hfirst];
    [reflexivity | now left |].
  split; [exact Hexpired | apply Hfirst; now left].
Defined.

(** ** The client as the repository builds it *)

Section Built.

Variable server : nat -> Request -> Reply.
Variable clock : nat -> Z.
Variable json_loads : list byte -> option json.
Variable json_dumps : json -> string.
Variable utf8_decode : list byte -> option string.

(** *** [execute] never comes to its data request *)

(** With the [threading.Lock] free when [execute] is called: a client that
    holds a token is stuck in [is_token_expired] before any request; one
    without is stuck in [login] when it comes to store the token. *)
Lemma execute_blocks_before_data fuel action endpoint query_params body_params
    request_headers force paginated st :
  lock (self st) = Lock ->
  lock_held (self st) = 0%nat ->
  blocks_before_data server json_dumps
    (execute server clock json_loads json_dumps utf8_decode fuel action endpoint
       query_params body_params request_headers force paginated) st.
Proof.
  intros Hk Hfree.
  assert (Ha0 : acquirable (self st) = true)
    by (unfold acquirable; now rewrite Hk, Hfree).
  assert (Ha : acquirable (self (warned st)) = true)
    by now rewrite warned_self.
  split.
  - intros Ht.
    assert (Hrun : execute server clock json_loads json_dumps utf8_decode fuel
                     action endpoint query_params body_params request_headers
                     force paginated st
                   = (Blocked, held_more (warned st))).
    { unfold execute.
      erewrite bind_val; [| apply suppress_warnings_run].
      erewrite bind_blocked; [reflexivity |].
      apply ensure_token_blocks; rewrite ?warned_self; assumption. }
    unfold stuck. rewrite Hrun. cbn [fst snd].
    change (events (held_more (warned st))) with (events (warned st)).
    change (self (held_more (warned st)))
      with (set_lock_held (S (lock_held (self (warned st)))) (self (warned st))).
    rewrite warned_requests, app_nil_r.
    cbn [lock_held token token_expiry set_lock_held].
    rewrite warned_self. repeat split.
  - intros Ht r Hs Hok.
    set (s1 := held_more (warned st)).
    assert (Hself1 : self (warned s1)
                     = set_lock_held (S (lock_held (self st))) (self st)).
    { rewrite warned_self. unfold s1. cbn [self held_more with_self].
      now rewrite warned_self. }
    assert (Hperform :
      _perform_request_with_retries server "POST"
        ("https://" ++ api (self s1) ++ "/login")
        [("Content-Type", JStr "application/json");
         ("User-Agent", JStr (user_agent (self s1)))]
        JNull
        (Some (json_dumps (JObj [("username", identity (self s1));
                                 ("password", secret (self s1))])))
        (warned s1)
      = (Val r, advance (warned s1) 1
                  [EvRequest (login_request json_dumps (self st))])).
    { erewrite perform_first_ok; [| | exact Hok].
      - f_equal. f_equal. f_equal. f_equal.
        rewrite Hself1. unfold s1. cbn [self held_more with_self].
        rewrite warned_self. reflexivity.
      - rewrite Hself1. unfold s1. cbn [self held_more with_self].
        rewrite warned_self, warned_nreq.
        change (nreq (held_more (warned st))) with (nreq (warned st)).
        rewrite warned_nreq. exact Hs. }
    assert (Hrun : execute server clock json_loads json_dumps utf8_decode fuel
                     action endpoint query_params body_params request_headers
                     force paginated st
                   = (Blocked, advance (warned s1) 1
                                 [EvRequest (login_request json_dumps (self st))])).
    { unfold execute.
      erewrite bind_val; [| apply suppress_warnings_run].
      erewrite bind_blocked; [reflexivity |].
      unfold ensure_token, with_lock. rewrite Ha. fold (held_more (warned st)).
      fold s1.
      erewrite bind_val; [| reflexivity].
      replace (token (self s1)) with (token (self st))
        by (unfold s1; cbn [self held_more with_self token set_lock_held];
            now rewrite warned_self).
      rewrite Ht. cbn [negb].
      unfold login.
      erewrite bind_val; [| apply suppress_warnings_run].
      erewrite bind_val; [| reflexivity].
      rewrite warned_self.
      erewrite bind_val; [| exact Hperform].
      rewrite Hok.
      erewrite bind_blocked; [reflexivity |].
      apply store_token_blocks.
      cbn [self advance]. rewrite Hself1.
      unfold acquirable. cbn [lock lock_held set_lock_held]. now rewrite Hk. }
    unfold stuck. rewrite Hrun. cbn [fst snd events self advance].
    rewrite requests_of_app, warned_requests, Hself1.
    unfold s1. change (events (held_more (warned st))) with (events (warned st)).
    rewrite warned_requests.
    cbn [lock_held token token_expiry set_lock_held]. repeat split.
Qed.

(** *** Pagination *)

(** C3, on the code.  On the client [pc_lib_api.py] builds, called with
    its lock free, a paginated [execute] never comes to its pages: with a
    token it blocks before any request, without one after the login request,
    on the lock it holds itself (the defect of C8).  The page loop it does not
    reach would do what the claim says: run from a state with a live token
    against well-formed pages, it returns the items of all pages in page
    order, sends one request per page with the body [{pageToken: token}] after
    the first, and stops at the first page whose [nextPageToken] is absent or
    falsy. *)
Theorem paginated_call_blocks_before_its_pages
    action endpoint query_params body_params request_headers force fuel st :
  lock (self st) = Lock ->
  lock_held (self st) = 0%nat ->
  blocks_before_data server json_dumps
    (execute server clock json_loads json_dumps utf8_decode fuel action endpoint
       query_params body_params request_headers force true) st
  /\ (forall (pages : list Page) (last : Response) (items : list json),
        token_live clock (self st) ->
        served server json_loads
          (data_request json_dumps (self st) action endpoint query_params
             (effective_headers (self st) request_headers))
          (nreq st) body_params pages ->
        server (nreq st + List.length pages)
          (data_request json_dumps (self st) action endpoint query_params
             (effective_headers (self st) request_headers)
             (body_after body_params pages))
        = Responded last ->
        page json_loads last items None ->
        (List.length pages < fuel)%nat ->
        exists st',
          execute_loop server clock json_loads json_dumps utf8_decode fuel action
            endpoint query_params body_params request_headers force true [] st
          = (Val (RList (items_of pages ++ items)), st')
          /\ requests_of (events st')
             = requests_of (events st)
               ++ page_requests
                    (data_request json_dumps (self st) action endpoint
                       query_params (effective_headers (self st) request_headers))
                    body_params pages
               ++ [data_request json_dumps (self st) action endpoint query_params
                     (effective_headers (self st) request_headers)
                     (body_after body_params pages)])
  /\ (forall t,
        data (data_request json_dumps (self st) action endpoint query_params
                (effective_headers (self st) request_headers) (continuation t))
        = Some (json_dumps (JObj [("pageToken", t)]))).
Proof.
  intros Hk Hfree.
  split; [now apply execute_blocks_before_data |].
  split; [| reflexivity].
  intros pages last items Hl Hserved Hlast Hpage Hfuel.
  assert (Ha : acquirable (self st) = true)
    by (unfold acquirable; now rewrite Hk, Hfree).
  destruct (loop_collects server clock json_loads json_dumps utf8_decode action
              endpoint query_params body_params request_headers force fuel [] st
              pages last items Ha Hl Hserved Hlast Hpage Hfuel)
    as (st' & Hrun & _ & Hsent).
  exists st'. split; assumption.
Qed.

(** *** Dispatch on a successful response *)

(** An iteration of the page loop whose expiry check finds the token live
    and whose request is answered, at whatever attempt, with a successful
    response [r]. *)
Lemma iteration_dispatches fuel action endpoint query_params body_params
    request_headers force paginated results st expiry st1 r :
  acquirable (self st) = true ->
  token_expiry (self st) = Some expiry -> expiry <> 0 ->
  clock (ticks st) < expiry ->
  _perform_request_with_retries server action
    (url (data_request json_dumps (self st) action endpoint query_params
            (effective_headers (self st) request_headers) body_params))
    (effective_headers (self st) request_headers) query_params
    (data (data_request json_dumps (self st) action endpoint query_params
             (effective_headers (self st) request_headers) body_params))
    (tick st)
  = (Val r, st1) ->
  ok r = true ->
  returns_body utf8_decode
    (fst (execute_loop server clock json_loads json_dumps utf8_decode (S fuel)
            action endpoint query_params body_params request_headers force
            paginated results st)) r
  /\ decodes_json json_loads
       (fst (execute_loop server clock json_loads json_dumps utf8_decode (S fuel)
               action endpoint query_params body_params request_headers force
               paginated results st)) r force paginated results.
Proof.
  intros Ha He Hnz Hlive Hperform Hok.
  assert (Hrun :
    execute_loop server clock json_loads json_dumps utf8_decode (S fuel)
      action endpoint query_params body_params request_headers force
      paginated results st
    = match content r with
      | [] => ret RNone
      | _ :: _ =>
          if match content_type r with
             | Some t => (t =? "application/x-gzip")%string
             | None => false
             end
          then ret (RBytes (content r))
          else if match content_type r with
                  | Some t => (t =? "text/csv")%string
                  | None => false
                  end
          then match utf8_decode (content r) with
               | Some s => ret (RText s)
               | None => raise UnicodeDecodeError
               end
          else
            match json_loads (content r) with
            | None =>
                logger_error "JSON parsing error." ;;
                if force then ret (RList results)
                else error_and_exit (status_code r) "Error parsing response" ""
            | Some result =>
                if paginated then
                  items <- page_items result ;;
                  match next_page_token result with
                  | Some t =>
                      execute_loop server clock json_loads json_dumps utf8_decode
                        fuel action endpoint query_params
                        (JObj [("pageToken", t)])
                        (Some (effective_headers (self st) request_headers))
                        force paginated (results ++ items)
                  | None => ret (RList (results ++ items))
                  end
                else ret (RJson result)
            end
      end st1).
  { cbn [execute_loop].
    erewrite bind_val; [| apply (is_token_expired_at _ _ _ Ha He Hnz)].
    apply Z.ltb_lt in Hlive. rewrite Z.leb_antisym, Hlive. cbn [negb].
    erewrite bind_val; [| reflexivity].
    erewrite bind_val; [| reflexivity].
    cbv zeta.
    erewrite bind_val; [| exact Hperform].
    cbv beta. now rewrite Hok. }
  rewrite Hrun. split.
  - repeat split.
    + intros Hc. now rewrite Hc.
    + intros Hc Ht. rewrite Ht.
      destruct (content r); [congruence | reflexivity].
    + intros Hc Ht. rewrite Ht.
      destruct (content r); [congruence |]. cbn.
      now destruct (utf8_decode _).
  - intros Hc Hgz Hcsv.
    rewrite (content_type_differs r _ Hgz), (content_type_differs r _ Hcsv).
    destruct (content r) eqn:Econtent; [congruence |].
    split.
    + intros Hj. rewrite Hj. now destruct force.
    + intros v Hj ->. now rewrite Hj.
Qed.

(** C7, on the code.  On the client [pc_lib_api.py] builds, called with
    its lock free, [execute] never reads a data response: it blocks on its own
    lock before the data request (the defect of C8).  The dispatch it does not
    reach does what the claim says: at any iteration of the page loop, for the
    successful response of whatever attempt, an empty body returns [None],
    gzip the bytes, CSV the decoded text; anything else is JSON-decoded, and
    when that fails [results] is returned under [force] and [SystemExit]
    raised otherwise. *)
Theorem call_blocks_before_its_response
    fuel action endpoint query_params body_params request_headers force paginated
    st :
  lock (self st) = Lock ->
  lock_held (self st) = 0%nat ->
  blocks_before_data server json_dumps
    (execute server clock json_loads json_dumps utf8_decode (S fuel) action
       endpoint query_params body_params request_headers force paginated) st
  /\ (forall results expiry st1 r,
        token_expiry (self st) = Some expiry -> expiry <> 0 ->
        clock (ticks st) < expiry ->
        _perform_request_with_retries server action
          (url (data_request json_dumps (self st) action endpoint query_params
                  (effective_headers (self st) request_headers) body_params))
          (effective_headers (self st) request_headers) query_params
          (data (data_request json_dumps (self st) action endpoint query_params
                   (effective_headers (self st) request_headers) body_params))
          (tick st)
        = (Val r, st1) ->
        ok r = true ->
        returns_body utf8_decode
          (fst (execute_loop server clock json_loads json_dumps utf8_decode
                  (S fuel) action endpoint query_params body_params
                  request_headers force paginated results st)) r
        /\ decodes_json json_loads
             (fst (execute_loop server clock json_loads json_dumps utf8_decode
                     (S fuel) action endpoint query_params body_params
                     request_headers force paginated results st)) r force
             paginated results).
Proof.
  intros Hk Hfree.
  split; [now apply execute_blocks_before_data |].
  intros results expiry st1 r He Hnz Hlive Hperform Hok.
  apply iteration_dispatches with (expiry := expiry) (st1 := st1); try assumption.
  unfold acquirable. now rewrite Hk, Hfree.
Qed.

(** *** A page that is not a page *)

(** C9, on the code.  On the client [pc_lib_api.py] builds, called with
    its lock free, a paginated [execute] blocks on its own lock before the
    data request (the defect of C8) and returns nothing.  The page loop it
    does not reach does what the claim describes: after any number of pages, a
    successful response with an empty body makes it return [None], one with
    Content-Type gzip its bytes, one with Content-Type CSV its decoded text,
    and the items collected so far are not in the result. *)
Theorem paginated_call_blocks_before_a_body_response
    action endpoint query_params body_params request_headers force fuel st :
  lock (self st) = Lock ->
  lock_held (self st) = 0%nat ->
  blocks_before_data server json_dumps
    (execute server clock json_loads json_dumps utf8_decode fuel action endpoint
       query_params body_params request_headers force true) st
  /\ (forall results (pages : list Page) (r : Response),
        token_live clock (self st) ->
        served server json_loads
          (data_request json_dumps (self st) action endpoint query_params
             (effective_headers (self st) request_headers))
          (nreq st) body_params pages ->
        server (nreq st + List.length pages)
          (data_request json_dumps (self st) action endpoint query_params
             (effective_headers (self st) request_headers)
             (body_after body_params pages))
        = Responded r ->
        ok r = true ->
        (List.length pages < fuel)%nat ->
        returns_body utf8_decode
          (fst (execute_loop server clock json_loads json_dumps utf8_decode fuel
                  action endpoint query_params body_params request_headers force
                  true results st)) r).
Proof.
  intros Hk Hfree.
  split; [now apply execute_blocks_before_data |].
  intros results pages r Hl Hserved Hlast Hok Hfuel.
  apply loop_pages_returns_body with (pages := pages); try assumption.
  unfold acquirable. now rewrite Hk, Hfree.
Qed.

(** C4, on the code.  On the client [pc_lib_api.py] builds, called with
    its lock free, a paginated [execute] surfaces no error for a page without
    [items]: it blocks on its own lock before any page is requested (the
    defect of C8).  Nor would the page loop surface a decode-class error: after
    any number of pages, a successful response that decodes to a JSON object
    without an [items] key makes it raise [KeyError], whatever [force] is. *)
Theorem page_without_items_is_no_decode_error
    action endpoint query_params body_params request_headers force fuel st :
  lock (self st) = Lock ->
  lock_held (self st) = 0%nat ->
  blocks_before_data server json_dumps
    (execute server clock json_loads json_dumps utf8_decode fuel action endpoint
       query_params body_params request_headers force true) st
  /\ (forall results (pages : list Page) (r : Response)
             (kv : list (string * json)),
        token_live clock (self st) ->
        served server json_loads
          (data_request json_dumps (self st) action endpoint query_params
             (effective_headers (self st) request_headers))
          (nreq st) body_params pages ->
        server (nreq st + List.length pages)
          (data_request json_dumps (self st) action endpoint query_params
             (effective_headers (self st) request_headers)
             (body_after body_params pages))
        = Responded r ->
        json_response json_loads r (JObj kv) ->
        lookup "items" kv = None ->
        (List.length pages < fuel)%nat ->
        fst (execute_loop server clock json_loads json_dumps utf8_decode fuel
               action endpoint query_params body_params request_headers force
               true results st)
        = Raise (KeyError "items")).
Proof.
  intros Hk Hfree.
  split; [now apply execute_blocks_before_data |].
  intros results pages r kv Hl Hserved Hlast Hjson Hi Hfuel.
  apply loop_pages_no_items with (pages := pages) (r := r) (kv := kv);
    try assumption.
  - unfold acquirable. now rewrite Hk, Hfree.
  - apply Hjson.
Qed.

(** *** [login] and [extend_login] on a response that is [ok] *)

(** C6, on the code.  A call of [login] with the lock free, [r] being the
    response the retry wrapper hands back for the POST.  When [r] is [ok] and
    its body decodes to a dict, [login] assigns that dict's [token] and then
    evaluates [time.time() + self.token_limit].  On the client the repository
    builds there is no [token_limit]: [AttributeError] is raised, the token is
    stored without an expiry (the expiry is as before), the lock is released
    and nothing is printed.  Only when a caller has set [token_limit] is the
    expiry stored, as the clock reading after the response plus that limit.
    When [r] is not [ok], [login] raises [SystemExit] with a message that
    contains the status code and the response text, and token and expiry are
    as before. *)
Theorem login_stores_the_token_without_expiry (url : option string)
    (st st1 : State) (r : Response) :
  acquirable (self st) = true ->
  _perform_request_with_retries server "POST" (login_url (self st) url)
    [("Content-Type", JStr "application/json");
     ("User-Agent", JStr (user_agent (self st)))]
    JNull
    (Some (json_dumps (JObj [("username", identity (self st));
                             ("password", secret (self st))])))
    (warned st)
  = (Val r, st1) ->
  (ok r = true ->
   forall kv, json_loads (content r) = Some (JObj kv) ->
   match token_limit (self st) with
   | None =>
       exists st',
         login server clock json_loads json_dumps url st
         = (Raise AttributeError, st')
         /\ token (self st') = token_field kv
         /\ token_expiry (self st') = token_expiry (self st)
         /\ lock_held (self st') = lock_held (self st)
         /\ events st' = events st1
   | Some limit =>
       exists st',
         login server clock json_loads json_dumps url st = (Val tt, st')
         /\ token (self st') = token_field kv
         /\ token_expiry (self st') = Some (clock (ticks st) + limit)
   end)
  /\ (ok r = false ->
      login server clock json_loads json_dumps url st
      = (Raise (SystemExit (exit_message (status_code r)
                              (responded_with_an_error
                                 (login_url (self st) url) r))), st1)
      /\ occurs_in (str_int (status_code r))
           (exit_message (status_code r)
              (responded_with_an_error (login_url (self st) url) r))
      /\ occurs_in (text r)
           (exit_message (status_code r)
              (responded_with_an_error (login_url (self st) url) r))
      /\ token (self st1) = token (self st)
      /\ token_expiry (self st1) = token_expiry (self st)).
Proof.
  intros Ha Hperform.
  destruct (perform_state server "POST" (login_url (self st) url)
              [("Content-Type", JStr "application/json");
               ("User-Agent", JStr (user_agent (self st)))]
              JNull
              (Some (json_dumps (JObj [("username", identity (self st));
                                       ("password", secret (self st))])))
              (warned st)) as (n & evs & Hst1).
  rewrite Hperform in Hst1. simpl in Hst1.
  assert (Hself : self st1 = self st)
    by (rewrite Hst1; simpl; apply warned_self).
  assert (Hticks : ticks st1 = ticks st)
    by (rewrite Hst1; simpl; apply warned_ticks).
  assert (Hlogin : login server clock json_loads json_dumps url st
                   = bind (if ok r then store_token clock json_loads r
                           else error_and_exit (status_code r)
                                  (responded_with_an_error
                                     (login_url (self st) url) r) "")
                       (fun _ => c <- get_self ;;
                                 if debug c
                                 then emit (EvPrint "New API Token:" (Some (token c)))
                                 else ret tt) st1).
  { unfold login.
    erewrite bind_val; [| apply suppress_warnings_run].
    erewrite bind_val; [| reflexivity].
    rewrite warned_self. fold (login_url (self st) url).
    erewrite bind_val; [| exact Hperform]. reflexivity. }
  split.
  - intros Hok kv Hj. rewrite Hlogin, Hok.
    pose proof (store_token_run clock json_loads r kv st1) as Hstore.
    rewrite Hself, Hticks in Hstore.
    destruct (token_limit (self st)) as [limit |].
    + erewrite bind_val; [| apply Hstore; [exact Ha | exact Hj]].
      unfold bind, get_self. cbn [self debug renewed set_token set_token_expiry].
      destruct (debug (self st)); eexists; (split; [reflexivity |]);
        cbn; auto.
    + erewrite bind_raise; [| apply Hstore; [exact Ha | exact Hj]].
      eexists. split; [reflexivity |]. cbn. auto.
  - intros Hok. rewrite Hlogin, Hok.
    split; [reflexivity |].
    split; [apply exit_message_has_status |].
    split; [apply exit_message_has_text |].
    now rewrite Hself.
Qed.

(** [extend_login] answered at once with a token, on a client without a
    [token_limit]. *)
Lemma extend_login_without_limit st r kv :
  acquirable (self st) = true ->
  token_limit (self st) = None ->
  server (nreq st) (extend_request (self st)) = Responded r ->
  ok r = true ->
  json_loads (content r) = Some (JObj kv) ->
  exists st',
    extend_login server clock json_loads st = (Raise AttributeError, st')
    /\ requests_of (events st')
       = requests_of (events st) ++ [extend_request (self st)]
    /\ self st' = set_token (token_field kv) (self st).
Proof.
  intros Ha Hlimit Hs Hok Hj.
  pose proof (store_token_run clock json_loads r kv
                (advance (warned st) 1 [EvRequest (extend_request (self st))]))
    as Hstore.
  cbn [self advance] in Hstore. rewrite warned_self, Hlimit in Hstore.
  eexists. split; [| split].
  - unfold extend_login.
    erewrite bind_val; [| apply suppress_warnings_run].
    erewrite bind_val; [| reflexivity].
    erewrite bind_val.
    2:{ apply perform_first_ok; [| exact Hok].
        rewrite warned_nreq, warned_self. exact Hs. }
    rewrite Hok. rewrite warned_self.
    erewrite bind_raise; [reflexivity |].
    apply Hstore; assumption.
  - cbn [events advance]. now rewrite requests_of_app, warned_requests.
  - reflexivity.
Qed.

(** *** A token that has expired *)

(** C2, on the code.  A client as [pc_lib_api.py] builds it (plain lock,
    no [token_limit]) holds a token that has expired, and its lock is free.
    [execute] then sends nothing at all, neither an extend call nor a login
    nor the data request: it blocks in [is_token_expired] on the lock it holds
    itself (the defect of C8).  Nor does the page loop it does not reach renew
    the token: when its check finds the token expired and the extend call is
    answered with a new token, [extend_login] assigns the token and raises
    [AttributeError] on the missing [token_limit] (the defect of C6); the
    expiry stays as it was and no data request follows. *)
Theorem expired_token_is_not_renewed
    fuel action endpoint query_params body_params request_headers force paginated
    st (expiry : Z) :
  lock (self st) = Lock ->
  lock_held (self st) = 0%nat ->
  token_limit (self st) = None ->
  truthy (token (self st)) = true ->
  token_expiry (self st) = Some expiry -> expiry <> 0 ->
  expiry <= clock (ticks st) ->
  stuck (execute server clock json_loads json_dumps utf8_decode fuel action
           endpoint query_params body_params request_headers force paginated st)
    st []
  /\ (forall results r kv,
        server (nreq st) (extend_request (self st)) = Responded r ->
        ok r = true ->
        json_loads (content r) = Some (JObj kv) ->
        exists st',
          execute_loop server clock json_loads json_dumps utf8_decode (S fuel)
            action endpoint query_params body_params request_headers force
            paginated results st
          = (Raise AttributeError, st')
          /\ requests_of (events st')
             = requests_of (events st) ++ [extend_request (self st)]
          /\ token (self st') = token_field kv
          /\ token_expiry (self st') = Some expiry).
Proof.
  intros Hk Hfree Hlimit Ht He Hnz Hexp.
  assert (Ha : acquirable (self st) = true)
    by (unfold acquirable; now rewrite Hk, Hfree).
  split.
  - now apply execute_blocks_before_data.
  - intros results r kv Hs Hok Hj.
    destruct (extend_login_without_limit (tick st) r kv Ha Hlimit Hs Hok Hj)
      as (st' & Hrun & Hsent & Hself).
    exists st'. split; [| split; [exact Hsent |]].
    + cbn [execute_loop].
      erewrite bind_val; [| apply (is_token_expired_at _ _ _ Ha He Hnz)].
      apply Z.leb_le in Hexp. rewrite Hexp. cbv beta iota.
      erewrite bind_raise; [reflexivity | exact Hrun].
    + rewrite Hself. cbn [self tick token token_expiry set_token].
      now split.
Qed.

End Built.

(** ** Sample runs on the client as built *)

(** The spec's pagination scenario.  On a fresh client whose login is
    answered with [T1], and on a client that holds [T1], [execute] blocks; the
    page loop alone returns [[1, 2, 3]]. *)
Lemma paginated_call_blocks_before_its_pages_witness :
  fst (execute
         (Sample.scripted [Responded (Sample.ok_json "{token:T1}");
                           Responded Sample.page_1; Responded Sample.page_2])
         (Sample.steady 1000) Sample.loads Sample.dumps Sample.decode
         5 "GET" "resources" JNull JNull None false true
         (Sample.start Sample.fresh))
  = Blocked
  /\ stuck (execute
              (Sample.scripted [Responded Sample.page_1; Responded Sample.page_2])
              (Sample.steady 1000) Sample.loads Sample.dumps Sample.decode
              5 "GET" "resources" JNull JNull None false true
              (Sample.start (Sample.logged_in Lock)))
       (Sample.start (Sample.logged_in Lock)) []
  /\ fst (execute_loop
            (Sample.scripted [Responded Sample.page_1; Responded Sample.page_2])
            (Sample.steady 1000) Sample.loads Sample.dumps Sample.decode
            5 "GET" "resources" JNull JNull None false true []
            (Sample.start (Sample.logged_in Lock)))
     = Val (RList [JInt 1; JInt 2; JInt 3]).
Proof.
  split; [| split].
  - destruct (paginated_call_blocks_before_its_pages
                (Sample.scripted [Responded (Sample.ok_json "{token:T1}");
                                  Responded Sample.page_1; Responded Sample.page_2])
                (Sample.steady 1000) Sample.loads Sample.dumps Sample.decode
                "GET" "resources" JNull JNull None false 5
                (Sample.start Sample.fresh) eq_refl eq_refl)
      as ((_ & Hlogin) & _).
    exact (proj1 (Hlogin eq_refl (Sample.ok_json "{token:T1}") eq_refl eq_refl)).
  - destruct (paginated_call_blocks_before_its_pages
                (Sample.scripted [Responded Sample.page_1; Responded Sample.page_2])
                (Sample.steady 1000) Sample.loads Sample.dumps Sample.decode
                "GET" "resources" JNull JNull None false 5
                (Sample.start (Sample.logged_in Lock)) eq_refl eq_refl)
      as ((Htoken & _) & _).
    exact (Htoken eq_refl).
  - destruct (paginated_call_blocks_before_its_pages
                (Sample.scripted [Responded Sample.page_1; Responded Sample.page_2])
                (Sample.steady 1000) Sample.loads Sample.dumps Sample.decode
                "GET" "resources" JNull JNull None false 5
                (Sample.start (Sample.logged_in Lock)) eq_refl eq_refl)
      as (_ & Hloop & _).
    destruct (Hloop [(Sample.page_1, [JInt 1; JInt 2], JStr "A")]
                Sample.page_2 [JInt 3])
      as (st' & Hrun & _).
    + token_live_until 1590.
    + simpl. split; [reflexivity |]. split; [| exact I].
      is_page [("items", JArr [JInt 1; JInt 2]); ("nextPageToken", JStr "A")].
    + reflexivity.
    + is_page [("items", JArr [JInt 3]); ("nextPageToken", JStr "")].
      right. exists (JStr ""). now split.
    + simpl. lia.
    + rewrite Hrun. reflexivity.
Defined.

(** A data request that would be answered without a body: [execute] on a
    fresh client blocks after its login; the loop alone returns [None]. *)
Lemma call_blocks_before_its_response_witness :
  stuck (execute
           (Sample.scripted [Responded (Sample.ok_json "{token:T1}");
                             Responded Sample.no_content])
           (Sample.steady 1000) Sample.loads Sample.dumps Sample.decode
           1 "GET" "resources" JNull JNull None false false
           (Sample.start Sample.fresh))
    (Sample.start Sample.fresh) [login_request Sample.dumps Sample.fresh]
  /\ fst (execute_loop (Sample.scripted [Responded Sample.no_content])
            (Sample.steady 1000) Sample.loads Sample.dumps Sample.decode
            1 "GET" "resources" JNull JNull None false false []
            (Sample.start (Sample.logged_in Lock)))
     = Val RNone.
Proof.
  split.
  - destruct (call_blocks_before_its_response
                (Sample.scripted [Responded (Sample.ok_json "{token:T1}");
                                  Responded Sample.no_content])
                (Sample.steady 1000) Sample.loads Sample.dumps Sample.decode
                0 "GET" "resources" JNull JNull None false false
                (Sample.start Sample.fresh) eq_refl eq_refl)
      as ((_ & Hlogin) & _).
    exact (Hlogin eq_refl (Sample.ok_json "{token:T1}") eq_refl eq_refl).
  - destruct (call_blocks_before_its_response
                (Sample.scripted [Responded Sample.no_content])
                (Sample.steady 1000) Sample.loads Sample.dumps Sample.decode
                0 "GET" "resources" JNull JNull None false false
                (Sample.start (Sample.logged_in Lock)) eq_refl eq_refl)
      as (_ & Hloop).
    destruct (Hloop [] 1590 
                (advance (tick (Sample.start (Sample.logged_in Lock))) 1
                   [EvRequest (data_request Sample.dumps (Sample.logged_in Lock)
                                 "GET" "resources" JNull
                                 (default_headers (Sample.logged_in Lock)) JNull)])
                Sample.no_content)
      as ((Hempty & _) & _).
    + reflexivity.
    + discriminate.
    + reflexivity.
    + vm_compute. reflexivity.
    + reflexivity.
    + apply Hempty. reflexivity.
Defined.

(** After a page with items [1, 2], a CSV response: [execute] blocks; the
    loop alone returns the text and drops the items. *)
Lemma paginated_call_blocks_before_a_body_response_witness :
  stuck (execute
           (Sample.scripted [Responded Sample.page_1; Responded Sample.csv])
           (Sample.steady 1000) Sample.loads Sample.dumps Sample.decode
           5 "GET" "resources" JNull JNull None false true
           (Sample.start (Sample.logged_in Lock)))
    (Sample.start (Sample.logged_in Lock)) []
  /\ fst (execute_loop
            (Sample.scripted [Responded Sample.page_1; Responded Sample.csv])
            (Sample.steady 1000) Sample.loads Sample.dumps Sample.decode
            5 "GET" "resources" JNull JNull None false true []
            (Sample.start (Sample.logged_in Lock)))
     = Val (RText "a,b").
Proof.
  destruct (paginated_call_blocks_before_a_body_response
              (Sample.scripted [Responded Sample.page_1; Responded Sample.csv])
              (Sample.steady 1000) Sample.loads Sample.dumps Sample.decode
              "GET" "resources" JNull JNull None false 5
              (Sample.start (Sample.logged_in Lock)) eq_refl eq_refl)
    as ((Htoken & _) & Hloop).
  split; [exact (Htoken eq_refl) |].
  destruct (Hloop [] [(Sample.page_1, [JInt 1; JInt 2], JStr "A")] Sample.csv)
    as (_ & _ & Hcsv).
  - token_live_until 1590.
  - simpl. split; [reflexivity |]. split; [| exact I].
    is_page [("items", JArr [JInt 1; JInt 2]); ("nextPageToken", JStr "A")].
  - reflexivity.
  - reflexivity.
  - simpl. lia.
  - rewrite Hcsv; [reflexivity | discriminate | reflexivity].
Defined.

(** After a page with items [1, 2], a page without [items], with [force]
    set: [execute] blocks; the loop alone raises [KeyError]. *)
Lemma page_without_items_is_no_decode_error_witness :
  stuck (execute
           (Sample.scripted [Responded Sample.page_1; Responded Sample.no_items])
           (Sample.steady 1000) Sample.loads Sample.dumps Sample.decode
           5 "GET" "resources" JNull JNull None true true
           (Sample.start (Sample.logged_in Lock)))
    (Sample.start (Sample.logged_in Lock)) []
  /\ fst (execute_loop
            (Sample.scripted [Responded Sample.page_1; Responded Sample.no_items])
            (Sample.steady 1000) Sample.loads Sample.dumps Sample.decode
            5 "GET" "resources" JNull JNull None true true []
            (Sample.start (Sample.logged_in Lock)))
     = Raise (KeyError "items").
Proof.
  destruct (page_without_items_is_no_decode_error
              (Sample.scripted [Responded Sample.page_1; Responded Sample.no_items])
              (Sample.steady 1000) Sample.loads Sample.dumps Sample.decode
              "GET" "resources" JNull JNull None true 5
              (Sample.start (Sample.logged_in Lock)) eq_refl eq_refl)
    as ((Htoken & _) & Hloop).
  split; [exact (Htoken eq_refl) |].
  apply (Hloop [] [(Sample.page_1, [JInt 1; JInt 2], JStr "A")] Sample.no_items
           [("nextPageToken", JStr "B")]).
  - token_live_until 1590.
  - simpl. split; [reflexivity |]. split; [| exact I].
    is_page [("items", JArr [JInt 1; JInt 2]); ("nextPageToken", JStr "A")].
  - reflexivity.
  - repeat split; try discriminate; reflexivity.
  - reflexivity.
  - simpl. lia.
Defined.

(** [login] called on its own on a fresh client: answered with [T1] it
    stores the token and raises [AttributeError], leaving no expiry; answered
    503 on every attempt it raises [SystemExit]. *)
Lemma login_stores_the_token_without_expiry_witness :
  (exists st',
      login (Sample.scripted [Responded (Sample.ok_json "{token:T1}")])
        (Sample.steady 1000) Sample.loads Sample.dumps None
        (Sample.start Sample.fresh)
      = (Raise AttributeError, st')
      /\ token (self st') = JStr "T1"
      /\ token_expiry (self st') = None)
  /\ (exists msg,
        fst (login (Sample.scripted []) (Sample.steady 1000) Sample.loads
               Sample.dumps None (Sample.start Sample.fresh))
        = Raise (SystemExit msg)
        /\ occurs_in "503" msg /\ occurs_in "Service Unavailable" msg).
Proof.
  split.
  - destruct (login_stores_the_token_without_expiry
                (Sample.scripted [Responded (Sample.ok_json "{token:T1}")])
                (Sample.steady 1000) Sample.loads Sample.dumps None
                (Sample.start Sample.fresh)
                (advance (Sample.start Sample.fresh) 1
                   [EvRequest (login_request Sample.dumps Sample.fresh)])
                (Sample.ok_json "{token:T1}") eq_refl) as [Hok _].
    + vm_compute. reflexivity.
    + destruct (Hok eq_refl [("token", JStr "T1")] eq_refl)
        as (st' & Hrun & Htoken & Hexpiry & _).
      exists st'. split; [exact Hrun |]. split; [exact Htoken | exact Hexpiry].
  - destruct (login_stores_the_token_without_expiry (Sample.scripted [])
                (Sample.steady 1000) Sample.loads Sample.dumps None
                (Sample.start Sample.fresh)
                (snd (_perform_request_with_retries (Sample.scripted []) "POST"
                        (login_url Sample.fresh None)
                        (headers (login_request Sample.dumps Sample.fresh))
                        JNull (data (login_request Sample.dumps Sample.fresh))
                        (Sample.start Sample.fresh)))
                Sample.unavailable eq_refl) as [_ Hfail].
    + vm_compute. reflexivity.
    + destruct (Hfail eq_refl) as (Hrun & Hstatus & Htext & _).
      eexists. rewrite Hrun. split; [reflexivity | split; assumption].
Defined.

(** A token that expired at 1590, the clock at 1600, the server ready to
    answer an extend call with [T2]: [execute] blocks without sending
    anything; the loop alone sends the extend call, stores [T2] and raises
    [AttributeError]. *)
Lemma expired_token_is_not_renewed_witness :
  stuck (execute (Sample.scripted [Responded (Sample.ok_json "{token:T2}")])
           (Sample.steady 1600) Sample.loads Sample.dumps Sample.decode
           1 "GET" "resources" JNull JNull None false true
           (Sample.start (Sample.logged_in Lock)))
    (Sample.start (Sample.logged_in Lock)) []
  /\ (exists st',
        execute_loop (Sample.scripted [Responded (Sample.ok_json "{token:T2}")])
          (Sample.steady 1600) Sample.loads Sample.dumps Sample.decode
          1 "GET" "resources" JNull JNull None false true []
          (Sample.start (Sample.logged_in Lock))
        = (Raise AttributeError, st')
        /\ requests_of (events st') = [extend_request (Sample.logged_in Lock)]
        /\ token (self st') = JStr "T2"
        /\ token_expiry (self st') = Some 1590).
Proof.
  destruct (expired_token_is_not_renewed
              (Sample.scripted [Responded (Sample.ok_json "{token:T2}")])
              (Sample.steady 1600) Sample.loads Sample.dumps Sample.decode
              0 "GET" "resources" JNull JNull None false true
              (Sample.start (Sample.logged_in Lock)) 1590
              eq_refl eq_refl eq_refl eq_refl eq_refl)
    as (Hstuck & Hloop).
  - discriminate.
  - discriminate.
  - split; [exact Hstuck |].
    destruct (Hloop [] (Sample.ok_json "{token:T2}") [("token", JStr "T2")]
                eq_refl eq_refl eq_refl)
      as (st' & Hrun & Hsent & Htoken & Hexpiry).
    exists st'. split; [exact Hrun |]. split; [exact Hsent |].
    split; [exact Htoken | exact Hexpiry].
Defined.

(** ** Further properties of the code *)

Section Further.

Variable server : nat -> Request -> Reply.
Variable clock : nat -> Z.
Variable json_loads : list byte -> option json.
Variable json_dumps : json -> string.
Variable utf8_decode : list byte -> option string.

(** *** The retry wrapper, when every attempt of the [for] loop fails *)

Lemma perform_exhausted action url hdrs qp data st :
  (forall i, (i < List.length (retry_waits (self st)))%nat ->
     failed (server (nreq st + i)
               (mkRequest action url hdrs qp data (verify (self st))
                  (timeout (self st)))) = true) ->
  exists evs,
    _perform_request_with_retries server action url hdrs qp data st
    = (reply_outcome
         (server (nreq st + List.length (retry_waits (self st)))
            (mkRequest action url hdrs qp data (verify (self st))
               (timeout (self st)))),
       advance st (S (List.length (retry_waits (self st)))) evs)
    /\ requests_of evs
       = repeat (mkRequest action url hdrs qp data (verify (self st))
                   (timeout (self st)))
           (S (List.length (retry_waits (self st))))
    /\ sleeps_of evs = retry_waits (self st).
Proof.
  intros Hf.
  destruct (retry_loop_run server (retry_waits (self st)) 1
              (mkRequest action url hdrs qp data (verify (self st))
                 (timeout (self st)))
              st (List.length (retry_waits (self st))) (le_n _) Hf)
    as (evs & Hrun & Hq & Hsl & _).
  { intros H. exfalso. exact (Nat.lt_irrefl _ H). }
  exists evs. rewrite firstn_all in Hsl. now split.
Qed.

(** *** [login] and [extend_login]: the responses that store nothing *)

(** A body that is not JSON, or is JSON but not a dict, raises inside
    [with self.lock:], which releases the lock; nothing is stored. *)
Lemma store_token_fails r st :
  acquirable (self st) = true ->
  (json_loads (content r) = None ->
   store_token clock json_loads r st = (Raise ValueError, st))
  /\ (forall v, json_loads (content r) = Some v -> (forall kv, v <> JObj kv) ->
      store_token clock json_loads r st = (Raise AttributeError, st)).
Proof.
  intros Ha. split.
  - intros Hj. unfold store_token.
    erewrite with_lock_raise; [now rewrite held_less_more | exact Ha |].
    unfold loads_or_raise. now rewrite Hj.
  - intros v Hj Hv. unfold store_token.
    erewrite with_lock_raise; [now rewrite held_less_more | exact Ha |].
    unfold loads_or_raise. rewrite Hj.
    erewrite bind_val; [| reflexivity].
    destruct v; try reflexivity. now destruct (Hv kv).
Qed.

(** X2.  A call of [extend_login] with the lock free, [r] being the
    response the retry wrapper hands back for the GET, which carries the
    current token in [x-redlock-auth].  When [r] is [ok] and its body decodes
    to a dict, the call assigns that dict's [token] ([None] when it has none)
    and then evaluates [time.time() + self.token_limit]: on the client the
    repository builds there is no [token_limit], so [AttributeError] is raised
    with the new token stored and the expiry as before; only when a caller has
    set [token_limit] is the expiry stored.  When [r] is [ok] and its body is
    not JSON the call raises [ValueError], when the body is JSON but not a
    dict [AttributeError], and when [r] is not [ok] it raises [SystemExit]
    with a message that contains the status code and the response text; in
    these three cases the client is as before.  In every case the lock is
    released. *)
Theorem extend_login_outcomes (st st1 : State) (r : Response) :
  acquirable (self st) = true ->
  _perform_request_with_retries server "GET" (url (extend_request (self st)))
    (headers (extend_request (self st))) JNull None (warned st)
  = (Val r, st1) ->
  (ok r = true ->
   forall kv, json_loads (content r) = Some (JObj kv) ->
   match token_limit (self st) with
   | None =>
       exists st',
         extend_login server clock json_loads st = (Raise AttributeError, st')
         /\ self st' = set_token (token_field kv) (self st)
   | Some limit =>
       exists st',
         extend_login server clock json_loads st = (Val tt, st')
         /\ self st' = renewed (self st) (token_field kv)
                         (clock (ticks st) + limit)
   end)
  /\ (ok r = true -> json_loads (content r) = None ->
      extend_login server clock json_loads st = (Raise ValueError, st1))
  /\ (ok r = true ->
      forall v, json_loads (content r) = Some v -> (forall kv, v <> JObj kv) ->
      extend_login server clock json_loads st = (Raise AttributeError, st1))
  /\ (ok r = false ->
      extend_login server clock json_loads st
      = (Raise (SystemExit (exit_message (status_code r)
                              (responded_with_an_error
                                 (url (extend_request (self st))) r))), st1)
      /\ occurs_in (str_int (status_code r))
           (exit_message (status_code r)
              (responded_with_an_error (url (extend_request (self st))) r))
      /\ occurs_in (text r)
           (exit_message (status_code r)
              (responded_with_an_error (url (extend_request (self st))) r)))
  /\ self st1 = self st.
Proof.
  intros Ha Hperform.
  destruct (perform_state server "GET" (url (extend_request (self st)))
              (headers (extend_request (self st))) JNull None (warned st))
    as (n & evs & Hst1).
  rewrite Hperform in Hst1. simpl in Hst1.
  assert (Hself : self st1 = self st)
    by (rewrite Hst1; simpl; apply warned_self).
  assert (Hticks : ticks st1 = ticks st)
    by (rewrite Hst1; simpl; apply warned_ticks).
  assert (Ha1 : acquirable (self st1) = true) by now rewrite Hself.
  assert (Hrun : extend_login server clock json_loads st
                 = bind (if ok r then store_token clock json_loads r
                         else error_and_exit (status_code r)
                                (responded_with_an_error
                                   (url (extend_request (self st))) r) "")
                     (fun _ => c <- get_self ;;
                               if debug c
                               then emit (EvPrint "Extending API Token" None)
                               else ret tt) st1).
  { unfold extend_login.
    erewrite bind_val; [| apply suppress_warnings_run].
    erewrite bind_val; [| reflexivity].
    rewrite warned_self.
    erewrite bind_val; [| exact Hperform]. reflexivity. }
  destruct (store_token_fails r st1 Ha1) as [Hvalue Hattr].
  split; [| split; [| split; [| split]]].
  - intros Hok kv Hj. rewrite Hrun, Hok.
    pose proof (store_token_run clock json_loads r kv st1 Ha1 Hj) as Hstore.
    rewrite Hself, Hticks in Hstore.
    destruct (token_limit (self st)) as [limit |].
    + erewrite bind_val; [| exact Hstore].
      unfold bind, get_self. cbn [self debug renewed set_token set_token_expiry].
      destruct (debug (self st)); eexists; (split; [reflexivity |]); reflexivity.
    + erewrite bind_raise; [| exact Hstore].
      eexists. split; reflexivity.
  - intros Hok Hj. rewrite Hrun, Hok.
    erewrite bind_raise; [reflexivity | now apply Hvalue].
  - intros Hok v Hj Hv. rewrite Hrun, Hok.
    erewrite bind_raise; [reflexivity | now apply (Hattr v)].
  - intros Hok. rewrite Hrun, Hok.
    split; [reflexivity |].
    split; [apply exit_message_has_status | apply exit_message_has_text].
  - exact Hself.
Qed.

(** X3.  [login] answered [ok] with a body it cannot use: a body that is
    not JSON raises [ValueError], a JSON body that is not a dict raises
    [AttributeError].  Either leaves the client as it was: no token is
    stored, and the lock is released. *)
Theorem login_with_unusable_body_raises (url : option string) (st st1 : State)
    (r : Response) :
  acquirable (self st) = true ->
  _perform_request_with_retries server "POST" (login_url (self st) url)
    (headers (login_request json_dumps (self st))) JNull
    (data (login_request json_dumps (self st))) (warned st)
  = (Val r, st1) ->
  ok r = true ->
  (json_loads (content r) = None ->
   login server clock json_loads json_dumps url st = (Raise ValueError, st1))
  /\ (forall v, json_loads (content r) = Some v -> (forall kv, v <> JObj kv) ->
      login server clock json_loads json_dumps url st
      = (Raise AttributeError, st1))
  /\ self st1 = self st.
Proof.
  intros Ha Hperform Hok.
  destruct (perform_state server "POST" (login_url (self st) url)
              (headers (login_request json_dumps (self st))) JNull
              (data (login_request json_dumps (self st))) (warned st))
    as (n & evs & Hst1).
  rewrite Hperform in Hst1. simpl in Hst1.
  assert (Hself : self st1 = self st)
    by (rewrite Hst1; simpl; apply warned_self).
  assert (Ha1 : acquirable (self st1) = true) by now rewrite Hself.
  assert (Hrun : login server clock json_loads json_dumps url st
                 = bind (store_token clock json_loads r)
                     (fun _ => c <- get_self ;;
                               if debug c
                               then emit (EvPrint "New API Token:" (Some (token c)))
                               else ret tt) st1).
  { unfold login.
    erewrite bind_val; [| apply suppress_warnings_run].
    erewrite bind_val; [| reflexivity].
    rewrite warned_self. fold (login_url (self st) url).
    erewrite bind_val; [| exact Hperform]. now rewrite Hok. }
  destruct (store_token_fails r st1 Ha1) as [Hvalue Hattr].
  split; [| split].
  - intros Hj. rewrite Hrun.
    erewrite bind_raise; [reflexivity | now apply Hvalue].
  - intros v Hj Hv. rewrite Hrun.
    erewrite bind_raise; [reflexivity | now apply (Hattr v)].
  - exact Hself.
Qed.

(** *** A login that is refused *)

(** [login] when no attempt of its POST is answered [ok]. *)
Lemma login_refused st (r : Response) :
  (forall i, (i < List.length (retry_waits (self st)))%nat ->
     failed (server (nreq st + i) (login_request json_dumps (self st))) = true) ->
  server (nreq st + List.length (retry_waits (self st)))
    (login_request json_dumps (self st))
  = Responded r ->
  ok r = false ->
  exists st',
    login server clock json_loads json_dumps None st
    = (Raise (SystemExit (exit_message (status_code r)
                            (responded_with_an_error
                               (url (login_request json_dumps (self st))) r))),
       st')
    /\ requests_of (events st')
       = requests_of (events st)
         ++ repeat (login_request json_dumps (self st))
              (S (List.length (retry_waits (self st))))
    /\ self st' = self st.
Proof.
  intros Hf Hs Hnok.
  pose proof (perform_exhausted "POST" (url (login_request json_dumps (self st)))
                (headers (login_request json_dumps (self st))) JNull
                (data (login_request json_dumps (self st))) (warned st))
    as Hperform.
  rewrite warned_self, warned_nreq in Hperform.
  destruct (Hperform Hf) as (evs & Hrun & Hq & _).
  change (mkRequest "POST" (url (login_request json_dumps (self st)))
            (headers (login_request json_dumps (self st))) JNull
            (data (login_request json_dumps (self st))) (verify (self st))
            (timeout (self st)))
    with (login_request json_dumps (self st)) in Hrun, Hq.
  rewrite Hs in Hrun. cbn [reply_outcome] in Hrun.
  eexists. split.
  - unfold login.
    erewrite bind_val; [| apply suppress_warnings_run].
    erewrite bind_val; [| reflexivity].
    rewrite warned_self.
    erewrite bind_val; [| exact Hrun].
    rewrite Hnok.
    erewrite bind_raise; reflexivity.
  - cbn [events advance self].
    rewrite requests_of_app, warned_requests, warned_self, Hq. now split.
Qed.

(** X8.  [execute] on a client without a token logs in first; when no
    attempt of the login is answered [ok], [execute] ends with [SystemExit]
    and the status code of the last response, with either kind of lock: the
    exception is raised before [login] comes to take the lock again, and it
    releases the lock [execute] holds.  No data request was sent. *)
Theorem execute_exits_when_login_is_refused fuel action endpoint query_params
    body_params request_headers force paginated st (r : Response) :
  acquirable (self st) = true ->
  truthy (token (self st)) = false ->
  (forall i, (i < List.length (retry_waits (self st)))%nat ->
     failed (server (nreq st + i) (login_request json_dumps (self st))) = true) ->
  server (nreq st + List.length (retry_waits (self st)))
    (login_request json_dumps (self st))
  = Responded r ->
  ok r = false ->
  exists st',
    execute server clock json_loads json_dumps utf8_decode fuel action endpoint
      query_params body_params request_headers force paginated st
    = (Raise (SystemExit (exit_message (status_code r)
                            (responded_with_an_error
                               (url (login_request json_dumps (self st))) r))),
       st')
    /\ occurs_in (str_int (status_code r))
         (exit_message (status_code r)
            (responded_with_an_error (url (login_request json_dumps (self st))) r))
    /\ requests_of (events st')
       = requests_of (events st)
         ++ repeat (login_request json_dumps (self st))
              (S (List.length (retry_waits (self st))))
    /\ self st' = self st.
Proof.
  intros Ha Ht Hf Hs Hnok.
  pose proof (login_refused (held_more (warned st)) r) as Hlogin.
  change (login_request json_dumps (self (held_more (warned st))))
    with (login_request json_dumps (self (warned st))) in Hlogin.
  change (retry_waits (self (held_more (warned st))))
    with (retry_waits (self (warned st))) in Hlogin.
  change (nreq (held_more (warned st))) with (nreq (warned st)) in Hlogin.
  change (events (held_more (warned st))) with (events (warned st)) in Hlogin.
  rewrite warned_self, warned_nreq, warned_requests in Hlogin.
  destruct (Hlogin Hf Hs Hnok) as (s1 & Hrun & Hq & Hself).
  exists (held_less s1).
  split; [| split; [apply exit_message_has_status | split]].
  - unfold execute.
    erewrite bind_val; [| apply suppress_warnings_run].
    erewrite bind_raise; [reflexivity |].
    unfold ensure_token.
    apply with_lock_raise; [now rewrite warned_self |].
    erewrite bind_val; [| reflexivity].
    change (token (self (held_more (warned st)))) with (token (self (warned st))).
    rewrite warned_self, Ht. cbn [negb].
    exact Hrun.
  - exact Hq.
  - unfold held_less. cbn [self with_self]. rewrite Hself.
    change (self (held_more (warned st)))
      with (set_lock_held (S (lock_held (self (warned st)))) (self (warned st))).
    rewrite <- (warned_self st). now destruct (self (warned st)).
Qed.

(** *** What no method touches *)

Lemma same_config_refl c : same_config c c.
Proof. unfold same_config. repeat split. Qed.

Lemma same_config_set_token c0 c v :
  same_config c0 c -> same_config c0 (set_token v c).
Proof. now destruct c. Qed.

Lemma same_config_set_token_expiry c0 c e :
  same_config c0 c -> same_config c0 (set_token_expiry e c).
Proof. now destruct c. Qed.

Lemma same_config_set_lock_held c0 c n :
  same_config c0 c -> same_config c0 (set_lock_held n c).
Proof. now destruct c. Qed.

Lemma tidy_intro {A} c0 P (m : M A) st :
  (same_config c0 (self st) -> tidy c0 P m st) -> tidy c0 P m st.
Proof. intros H Hc. now apply H. Qed.

Lemma tidy_weaken {A} c0 (P Q : Request -> Prop) (m : M A) st :
  (forall rq, P rq -> Q rq) -> tidy c0 P m st -> tidy c0 Q m st.
Proof.
  intros HPQ Hm Hc. destruct (Hm Hc) as (Hc1 & (evs & Hev & HP) & Hl).
  split; [exact Hc1 |]. split; [| exact Hl].
  exists evs. split; [exact Hev |]. eapply Forall_impl; [exact HPQ | exact HP].
Qed.

(** A step that sends nothing and leaves configuration and lock alone. *)
Lemma tidy_quiet {A} c0 P (m : M A) st (o : outcome A) (st' : State) :
  m st = (o, st') ->
  (same_config c0 (self st) -> same_config c0 (self st')) ->
  lock_held (self st') = lock_held (self st) ->
  (exists evs, events st' = events st ++ evs /\ requests_of evs = []) ->
  tidy c0 P m st.
Proof.
  intros Hrun Hconf Hlock (evs & Hev & Hq) Hc. rewrite Hrun. simpl.
  split; [now apply Hconf |]. split.
  - exists evs. split; [exact Hev |]. rewrite Hq. constructor.
  - now destruct o.
Qed.

Lemma tidy_ret {A} c0 P (a : A) st : tidy c0 P (ret a) st.
Proof.
  apply (tidy_quiet c0 P _ st (Val a) st); [reflexivity | auto | reflexivity |].
  exists []. now rewrite app_nil_r.
Qed.

Lemma tidy_raise {A} c0 P (e : exn) st : tidy c0 P (@raise A e) st.
Proof.
  apply (tidy_quiet c0 P _ st (Raise e) st); [reflexivity | auto | reflexivity |].
  exists []. now rewrite app_nil_r.
Qed.

Lemma tidy_stop {A} c0 P (o : outcome A) st : tidy c0 P (fun st => (o, st)) st.
Proof.
  apply (tidy_quiet c0 P _ st o st); [reflexivity | auto | reflexivity |].
  exists []. now rewrite app_nil_r.
Qed.

Lemma tidy_get_self c0 P st : tidy c0 P get_self st.
Proof.
  apply (tidy_quiet c0 P _ st (Val (self st)) st);
    [reflexivity | auto | reflexivity |].
  exists []. now rewrite app_nil_r.
Qed.

Lemma tidy_time_time c0 P st : tidy c0 P (time_time clock) st.
Proof.
  apply (tidy_quiet c0 P _ st (Val (clock (ticks st))) (tick st));
    [reflexivity | auto | reflexivity |].
  exists []. simpl. now rewrite app_nil_r.
Qed.

Lemma tidy_emit c0 P (e : Event) st : requests_of [e] = [] -> tidy c0 P (emit e) st.
Proof.
  intros He.
  apply (tidy_quiet c0 P _ st (Val tt)
           (mkState (self st) (ticks st) (nreq st) (events st ++ [e])));
    [reflexivity | auto | reflexivity |].
  now exists [e].
Qed.

Lemma tidy_set_token c0 P v st : tidy c0 P (modify_self (set_token v)) st.
Proof.
  apply (tidy_quiet c0 P _ st (Val tt) (with_self (set_token v) st));
    [reflexivity | apply same_config_set_token | now destruct st as [[]] |].
  exists []. simpl. now rewrite app_nil_r.
Qed.

Lemma tidy_set_token_expiry c0 P e st :
  tidy c0 P (modify_self (set_token_expiry e)) st.
Proof.
  apply (tidy_quiet c0 P _ st (Val tt) (with_self (set_token_expiry e) st));
    [reflexivity | apply same_config_set_token_expiry | now destruct st as [[]] |].
  exists []. simpl. now rewrite app_nil_r.
Qed.

Lemma tidy_request c0 (P : Request -> Prop) rq st :
  P rq -> tidy c0 P (requests_request server rq) st.
Proof.
  intros HP Hc. rewrite requests_request_run. simpl.
  split; [exact Hc |]. split.
  - exists [EvRequest rq]. split; [reflexivity |]. simpl. now constructor.
  - now destruct (server (nreq st) rq).
Qed.

Lemma tidy_bind {A B} c0 P (m : M A) (f : A -> M B) st :
  tidy c0 P m st ->
  (forall a st', m st = (Val a, st') -> tidy c0 P (f a) st') ->
  tidy c0 P (bind m f) st.
Proof.
  intros Hm Hf Hc. destruct (Hm Hc) as (Hc1 & (evs & Hev & HP) & Hl).
  unfold bind. destruct (m st) as [[a | e | |] st1] eqn:E; simpl in *;
    try (split; [exact Hc1 |]; split; [now exists evs | auto]).
  destruct (Hf a st1 eq_refl Hc1) as (Hc2 & (evs2 & Hev2 & HP2) & Hl2).
  split; [exact Hc2 |]. split.
  - exists (evs ++ evs2). rewrite Hev2, Hev, app_assoc. split; [reflexivity |].
    rewrite requests_of_app. now apply Forall_app.
  - destruct (fst (f a st1)); auto; congruence.
Qed.

Lemma tidy_try {A} c0 P (m : M A) (h : string -> M A) st :
  tidy c0 P m st ->
  (forall e st', m st = (Raise (RequestException e), st') -> tidy c0 P (h e) st') ->
  tidy c0 P (try_except_RequestException m h) st.
Proof.
  intros Hm Hh Hc. destruct (Hm Hc) as (Hc1 & (evs & Hev & HP) & Hl).
  unfold try_except_RequestException.
  destruct (m st) as [[a | e | |] st1] eqn:E; simpl in *;
    try (split; [exact Hc1 |]; split; [now exists evs | auto]).
  destruct e as [msg | e | | | k | |]; simpl;
    try (split; [exact Hc1 |]; split; [now exists evs | auto]).
  destruct (Hh e st1 eq_refl Hc1) as (Hc2 & (evs2 & Hev2 & HP2) & Hl2).
  split; [exact Hc2 |]. split.
  - exists (evs ++ evs2). rewrite Hev2, Hev, app_assoc. split; [reflexivity |].
    rewrite requests_of_app. now apply Forall_app.
  - destruct (fst (h e st1)); auto; congruence.
Qed.

Lemma tidy_with_lock {A} c0 P (body : M A) st :
  tidy c0 P body (held_more st) -> tidy c0 P (with_lock body) st.
Proof.
  intros Hb Hc. unfold with_lock.
  destruct (acquirable (self st)).
  - fold (held_more st).
    destruct Hb as (Hc1 & (evs & Hev & HP) & Hl).
    { apply same_config_set_lock_held, Hc. }
    destruct (body (held_more st)) as [[a | e | |] st1]; simpl in *;
      (split; [try apply same_config_set_lock_held; exact Hc1 |]);
      (split; [now exists evs |]); auto; now rewrite Hl.
  - simpl. split; [exact Hc |]. split; [| exact I].
    exists []. rewrite app_nil_r. split; [reflexivity | constructor].
Qed.

Ltac tidy_step :=
  first
    [ apply tidy_ret | apply tidy_raise | apply tidy_get_self
    | apply tidy_time_time
    | apply tidy_emit; reflexivity
    | apply tidy_set_token | apply tidy_set_token_expiry
    | apply tidy_with_lock
    | apply tidy_try; [| intros ? ? _]
    | apply tidy_bind; [| intros ? ? _]
    | match goal with
      | |- tidy _ _ (if ?b then _ else _) _ => destruct b
      | |- tidy _ _ (match ?x with _ => _ end) _ => destruct x
      end ].

Lemma tidy_retry_loop c0 (P : Request -> Prop) rq waits :
  P rq -> forall attempt st, tidy c0 P (retry_loop server attempt waits rq) st.
Proof.
  intros HP. induction waits as [| w rest IH]; intros attempt st; simpl.
  - now apply tidy_request.
  - unfold time_sleep, logger_error.
    repeat (first [apply IH | apply tidy_request; exact HP | tidy_step]).
Qed.

Lemma tidy_perform c0 (P : Request -> Prop) action url hdrs qp data st :
  (forall c, same_config c0 c ->
             P (mkRequest action url hdrs qp data (verify c) (timeout c))) ->
  tidy c0 P (_perform_request_with_retries server action url hdrs qp data) st.
Proof.
  intros HP. apply tidy_intro. intros Hc.
  unfold _perform_request_with_retries.
  apply tidy_bind; [apply tidy_get_self |].
  intros c st' Heq. injection Heq as <- <-.
  apply tidy_retry_loop. now apply HP.
Qed.

Lemma tidy_suppress c0 P st : tidy c0 P suppress_warnings_when_verify_false st.
Proof. unfold suppress_warnings_when_verify_false. repeat tidy_step. Qed.

Lemma tidy_is_token_expired c0 P st : tidy c0 P (is_token_expired clock) st.
Proof. unfold is_token_expired. repeat tidy_step. Qed.

Lemma tidy_store_token c0 P r st : tidy c0 P (store_token clock json_loads r) st.
Proof. unfold store_token, loads_or_raise, get_method. repeat tidy_step. Qed.

Lemma same_config_extend_request c0 c :
  same_config c0 c -> extend_request c = extend_request (set_token (token c) c0).
Proof.
  intros (Hapi & _ & _ & Hv & _ & Ht & Hu & _). unfold extend_request.
  cbn [api user_agent token verify timeout set_token].
  now rewrite Hapi, Hv, Ht, Hu.
Qed.

Lemma tidy_extend_login c0 (P : Request -> Prop) st :
  (forall tok, P (extend_request (set_token tok c0))) ->
  tidy c0 P (extend_login server clock json_loads) st.
Proof.
  intros HP. unfold extend_login, error_and_exit.
  apply tidy_bind; [apply tidy_suppress | intros [] st1 _].
  apply tidy_intro. intros Hc.
  apply tidy_bind; [apply tidy_get_self | intros c st2 Heq].
  injection Heq as <- <-.
  apply tidy_bind.
  { apply tidy_perform. intros c Hcc.
    pose proof (HP (token (self st1))) as Htok.
    rewrite <- (same_config_extend_request c0 (self st1) Hc) in Htok.
    destruct Hc as (_ & _ & _ & Hv & _ & Ht & _).
    destruct Hcc as (_ & _ & _ & Hv' & _ & Ht' & _).
    rewrite Hv', <- Hv, Ht', <- Ht. exact Htok. }
  intros r st2 _.
  repeat (first [apply tidy_store_token | tidy_step]).
Qed.

Lemma tidy_login c0 (P : Request -> Prop) url st :
  (forall a u h q d c, same_config c0 c ->
                       P (mkRequest a u h q d (verify c) (timeout c))) ->
  tidy c0 P (login server clock json_loads json_dumps url) st.
Proof.
  intros HP. unfold login, error_and_exit.
  repeat (first [apply tidy_suppress | apply tidy_store_token
                | apply tidy_perform; intros; now apply HP | tidy_step]).
Qed.

Lemma tidy_ensure_token c0 (P : Request -> Prop) st :
  (forall a u h q d c, same_config c0 c ->
                       P (mkRequest a u h q d (verify c) (timeout c))) ->
  tidy c0 P (ensure_token server clock json_loads json_dumps) st.
Proof.
  intros HP. unfold ensure_token.
  repeat (first [apply tidy_is_token_expired | now apply tidy_login | tidy_step]).
Qed.

Lemma same_config_data_request c0 c action endpoint query_params h body :
  same_config c0 c ->
  data_request json_dumps c action endpoint query_params h body
  = data_request json_dumps c0 action endpoint query_params h body.
Proof.
  intros (Hapi & _ & _ & Hv & _ & Ht & _). unfold data_request.
  now rewrite Hapi, Hv, Ht.
Qed.

(** What an iteration does once its headers [hdrs] are chosen. *)
Lemma tidy_fetch c0 action endpoint query_params force paginated (h : Headers)
    (fuel : nat) :
  (forall body results st,
     tidy c0 (loop_request json_dumps c0 action endpoint query_params h)
       (execute_loop server clock json_loads json_dumps utf8_decode fuel action
          endpoint query_params body (Some h) force paginated results) st) ->
  forall body results c st,
    same_config c0 c ->
    tidy c0 (loop_request json_dumps c0 action endpoint query_params h)
      (api_response <- _perform_request_with_retries server action
                         ("https://" ++ api c ++ "/" ++ endpoint) h query_params
                         (if truthy body then Some (json_dumps body) else None) ;;
       if ok api_response then
         match content api_response with
         | [] => ret RNone
         | _ :: _ =>
             if match content_type api_response with
                | Some t => (t =? "application/x-gzip")%string
                | None => false
                end
             then ret (RBytes (content api_response))
             else if match content_type api_response with
                     | Some t => (t =? "text/csv")%string
                     | None => false
                     end
             then match utf8_decode (content api_response) with
                  | Some s => ret (RText s)
                  | None => raise UnicodeDecodeError
                  end
             else
               match json_loads (content api_response) with
               | None =>
                   logger_error "JSON parsing error." ;;
                   if force then ret (RList results)
                   else error_and_exit (status_code api_response)
                          "Error parsing response" ""
               | Some result =>
                   if paginated then
                     items <- page_items result ;;
                     match next_page_token result with
                     | Some t =>
                         execute_loop server clock json_loads json_dumps
                           utf8_decode fuel action endpoint query_params
                           (JObj [("pageToken", t)]) (Some h)
                           force paginated (results ++ items)
                     | None => ret (RList (results ++ items))
                     end
                   else ret (RJson result)
               end
         end
       else
         logger_error "API error response." ;;
         execute_loop server clock json_loads json_dumps utf8_decode fuel action
           endpoint query_params body (Some h) force paginated results) st.
Proof.
  intros IH body results c st Hc.
  apply tidy_bind.
  { apply tidy_perform. intros c' Hc'. right. exists body.
    rewrite <- (same_config_data_request c0 c' action endpoint query_params h body Hc').
    unfold data_request.
    destruct Hc as (Hapi & _). destruct Hc' as (Hapi' & _).
    now rewrite Hapi, Hapi'. }
  intros r st1 _.
  unfold error_and_exit, logger_error, page_items.
  repeat (first [apply IH | tidy_step]).
Qed.

Lemma tidy_loop_given c0 action endpoint query_params force paginated (h : Headers) :
  headers_given (Some h) = true ->
  forall fuel body results st,
    tidy c0 (loop_request json_dumps c0 action endpoint query_params h)
      (execute_loop server clock json_loads json_dumps utf8_decode fuel action
         endpoint query_params body (Some h) force paginated results) st.
Proof.
  intros Hg. induction fuel as [| fuel IH]; intros body results st.
  - apply tidy_stop.
  - cbn [execute_loop].
    apply tidy_bind; [apply tidy_is_token_expired | intros expired st1 _].
    apply tidy_bind.
    { destruct expired; [| apply tidy_ret].
      apply tidy_extend_login. intros tok. left. now exists tok. }
    intros [] st2 _.
    apply tidy_intro. intros Hc.
    apply tidy_bind; [apply tidy_get_self | intros c st3 Heq].
    injection Heq as <- <-.
    cbv zeta. rewrite Hg.
    now apply tidy_fetch.
Qed.

Lemma tidy_loop_first c0 action endpoint query_params force paginated
    request_headers fuel body results st :
  headers_given request_headers = false ->
  tidy c0
    (loop_request json_dumps c0 action endpoint query_params
       (default_headers (self (snd (renew_if_expired server clock json_loads st)))))
    (execute_loop server clock json_loads json_dumps utf8_decode (S fuel) action
       endpoint query_params body request_headers force paginated results) st.
Proof.
  intros Hg.
  cbn [execute_loop].
  apply tidy_bind; [apply tidy_is_token_expired | intros expired st1 E1].
  apply tidy_bind.
  { destruct expired; [| apply tidy_ret].
    apply tidy_extend_login. intros tok. left. now exists tok. }
  intros [] st2 E2.
  assert (Hrenew : renew_if_expired server clock json_loads st = (Val tt, st2)).
  { unfold renew_if_expired. erewrite bind_val; [| exact E1]. exact E2. }
  rewrite Hrenew. cbn [snd].
  apply tidy_intro. intros Hc.
  apply tidy_bind; [apply tidy_get_self | intros c st3 Heq].
  injection Heq as <- <-.
  cbv zeta. rewrite Hg.
  apply tidy_fetch; [| exact Hc].
  now apply tidy_loop_given.
Qed.

Lemma tidy_loop_any c0 (P : Request -> Prop) action endpoint query_params force
    paginated fuel request_headers body results st :
  (forall a u h q d c, same_config c0 c ->
                       P (mkRequest a u h q d (verify c) (timeout c))) ->
  tidy c0 P
    (execute_loop server clock json_loads json_dumps utf8_decode fuel action
       endpoint query_params body request_headers force paginated results) st.
Proof.
  intros HP.
  assert (Hloop : forall h rq,
            loop_request json_dumps c0 action endpoint query_params h rq -> P rq).
  { intros h rq [(tok & ->) | (b & ->)].
    - apply (HP _ _ _ _ _ (set_token tok c0)).
      apply same_config_set_token, same_config_refl.
    - apply (HP _ _ _ _ _ c0), same_config_refl. }
  destruct fuel as [| fuel]; [apply tidy_stop |].
  destruct (headers_given request_headers) eqn:Hg.
  - destruct request_headers as [[| x h] |]; try discriminate.
    eapply tidy_weaken; [apply Hloop |].
    now apply (tidy_loop_given c0 action endpoint query_params force paginated
                 (x :: h)).
  - eapply tidy_weaken; [apply Hloop |]. now apply tidy_loop_first.
Qed.

Lemma tidy_execute c0 (P : Request -> Prop) fuel action endpoint query_params
    body_params request_headers force paginated st :
  (forall a u h q d c, same_config c0 c ->
                       P (mkRequest a u h q d (verify c) (timeout c))) ->
  tidy c0 P
    (execute server clock json_loads json_dumps utf8_decode fuel action endpoint
       query_params body_params request_headers force paginated) st.
Proof.
  intros HP. unfold execute.
  apply tidy_bind; [apply tidy_suppress | intros [] st1 _].
  apply tidy_bind; [now apply tidy_ensure_token | intros [] st2 _].
  now apply tidy_loop_any.
Qed.

(** X10.  Whatever the server answers and however it ends, [execute]
    changes nothing of the client but the token and its expiry, only adds to
    the log, and, when it ends with a value or an exception, leaves the lock
    held as often as it found it. *)
Theorem execute_keeps_the_configuration fuel action endpoint query_params
    body_params request_headers force paginated st :
  same_config (self st)
    (self (snd (execute server clock json_loads json_dumps utf8_decode fuel action
                  endpoint query_params body_params request_headers force
                  paginated st)))
  /\ extends st
       (snd (execute server clock json_loads json_dumps utf8_decode fuel action
               endpoint query_params body_params request_headers force
               paginated st))
  /\ match fst (execute server clock json_loads json_dumps utf8_decode fuel action
                  endpoint query_params body_params request_headers force
                  paginated st) with
     | Val _ | Raise _ =>
         lock_held (self (snd (execute server clock json_loads json_dumps
                                 utf8_decode fuel action endpoint query_params
                                 body_params request_headers force paginated st)))
         = lock_held (self st)
     | _ => True
     end.
Proof.
  destruct (tidy_execute (self st) (fun _ => True) fuel action endpoint
              query_params body_params request_headers force paginated st
              (fun _ _ _ _ _ _ _ => I) (same_config_refl _))
    as (Hc & (evs & Hev & _) & Hl).
  split; [exact Hc |]. split; [now exists evs | exact Hl].
Qed.

(** X15.  Every request [execute] sends, in its login, in a renewal and
    for the data, is made with the [verify] and [timeout] settings of the
    client: certificate verification is never switched off, nor a timeout
    dropped, for a single request. *)
Theorem execute_sends_with_the_client_settings fuel action endpoint query_params
    body_params request_headers force paginated st :
  exists evs,
    events (snd (execute server clock json_loads json_dumps utf8_decode fuel action
                   endpoint query_params body_params request_headers force
                   paginated st))
    = events st ++ evs
    /\ Forall (sent_as (self st)) (requests_of evs).
Proof.
  destruct (tidy_execute (self st) (sent_as (self st)) fuel action endpoint
              query_params body_params request_headers force paginated st)
    as (_ & Hsent & _).
  - intros a u h q d c (_ & _ & _ & Hv & _ & Ht & _). now split.
  - apply same_config_refl.
  - exact Hsent.
Qed.

(** *** The token methods of [PrismaCloudAPI] *)

Variable py_str : json -> string.
Variable exn_str : exn -> string.

Lemma host_is_token_expired_run st :
  acquirable (self st) = true ->
  PrismaCloudAPI.is_token_expired clock st
  = match token_expiry (self st) with
    | None => (Val true, st)
    | Some expiry => (Val (expiry <=? clock (ticks st)), tick st)
    end.
Proof.
  intros Ha. unfold PrismaCloudAPI.is_token_expired.
  destruct (token_expiry (self st)) as [expiry |] eqn:He.
  - erewrite with_lock_val; [| exact Ha |].
    2:{ unfold bind, get_self. cbn [self held_more with_self].
        change (token_expiry (set_lock_held (S (lock_held (self st))) (self st)))
          with (token_expiry (self st)).
        rewrite He. unfold time_time. reflexivity. }
    f_equal. destruct st as [c t n e]. now destruct c.
  - erewrite with_lock_val; [now rewrite held_less_more | exact Ha |].
    unfold bind, get_self. cbn [self held_more with_self].
    change (token_expiry (set_lock_held (S (lock_held (self st))) (self st)))
      with (token_expiry (self st)).
    now rewrite He.
Qed.

Lemma host_update_token_run new_token d st :
  acquirable (self st) = true ->
  PrismaCloudAPI.update_token clock new_token d st
  = (Val tt,
     mkState (renewed (self st) new_token (clock (ticks st) + d))
       (S (ticks st)) (nreq st) (events st)).
Proof.
  intros Ha. unfold PrismaCloudAPI.update_token.
  erewrite with_lock_val; [| exact Ha | reflexivity].
  reflexivity.
Qed.

Lemma host_get_token_run st :
  acquirable (self st) = true ->
  PrismaCloudAPI.get_token st = (Val (token (self st)), st).
Proof.
  intros Ha. unfold PrismaCloudAPI.get_token.
  erewrite with_lock_val; [| exact Ha | reflexivity].
  now rewrite held_less_more.
Qed.

(** X12.  [update_token], then [get_token] and [is_token_expired]: the
    token read back is the one stored, and it counts as expired exactly when
    the clock has reached the time of the update plus the duration given.
    The update touches nothing else of the client and leaves the lock as it
    found it. *)
Theorem update_token_round_trip (new_token : json) (d : Z) st :
  acquirable (self st) = true ->
  exists st1,
    PrismaCloudAPI.update_token clock new_token d st = (Val tt, st1)
    /\ PrismaCloudAPI.get_token st1 = (Val new_token, st1)
    /\ fst (PrismaCloudAPI.is_token_expired clock st1)
       = Val (clock (ticks st) + d <=? clock (S (ticks st)))
    /\ same_config (self st) (self st1)
    /\ lock_held (self st1) = lock_held (self st)
    /\ events st1 = events st.
Proof.
  intros Ha.
  eexists. split; [now apply host_update_token_run |].
  split; [now rewrite host_get_token_run |].
  split; [now rewrite host_is_token_expired_run |].
  split; [| now split].
  apply same_config_set_token_expiry, same_config_set_token, same_config_refl.
Qed.

(** X13.  [make_api_call] with the lock free: it checks the expiry,
    refreshes the token when that is missing or reached, and returns the
    simulated answer [{"status": "success"}].  It sends no request and writes
    nothing to the log.  After a refresh the token is [new_generated_token]
    and expires 590 seconds after the clock reading of the refresh; otherwise
    token and expiry are as before. *)
Theorem make_api_call_refreshes_an_expired_token (endpoint payload : json) st :
  acquirable (self st) = true ->
  exists st',
    PrismaCloudAPI.make_api_call clock py_str exn_str endpoint payload st
    = (Val (JObj [("status", JStr "success")]), st')
    /\ events st' = events st
    /\ nreq st' = nreq st
    /\ same_config (self st) (self st')
    /\ lock_held (self st') = lock_held (self st)
    /\ match token_expiry (self st) with
       | None =>
           token (self st') = JStr "new_generated_token"
           /\ token_expiry (self st') = Some (clock (ticks st) + 590)
       | Some expiry =>
           if expiry <=? clock (ticks st)
           then token (self st') = JStr "new_generated_token"
                /\ token_expiry (self st') = Some (clock (S (ticks st)) + 590)
           else token (self st') = token (self st)
                /\ token_expiry (self st') = Some expiry
       end.
Proof.
  intros Ha. unfold PrismaCloudAPI.make_api_call.
  pose proof (host_is_token_expired_run st Ha) as Hcheck.
  assert (Hheaders : forall s, acquirable (self s) = true ->
    with_lock
      (c <- get_self ;;
       ret [("Authorization", JStr ("Bearer " ++ py_str (token c))%string);
            ("User-Agent", JStr (user_agent c))]) s
    = (Val [("Authorization", JStr ("Bearer " ++ py_str (token (self s)))%string);
            ("User-Agent", JStr (user_agent (self s)))], s)).
  { intros s Hs. erewrite with_lock_val; [| exact Hs | reflexivity].
    now rewrite held_less_more. }
  destruct (token_expiry (self st)) as [expiry |] eqn:He;
    (erewrite bind_val; [| exact Hcheck]).
  - destruct (expiry <=? clock (ticks st)) eqn:Hexp.
    + unfold PrismaCloudAPI.refresh_token.
      erewrite bind_val; [| now apply host_update_token_run].
      erewrite bind_val; [| now apply Hheaders].
      eexists. split; [reflexivity |]. cbn [events nreq self ticks tick].
      repeat (split; [reflexivity |]).
      split; [| now split].
      apply same_config_set_token_expiry, same_config_set_token, same_config_refl.
    + erewrite bind_val; [| reflexivity].
      erewrite bind_val; [| now apply Hheaders].
      eexists. split; [reflexivity |]. cbn [events nreq self ticks tick].
      repeat (split; [reflexivity |]).
      split; [apply same_config_refl |]. now repeat split.
  - unfold PrismaCloudAPI.refresh_token.
    erewrite bind_val; [| now apply host_update_token_run].
    erewrite bind_val; [| now apply Hheaders].
    eexists. split; [reflexivity |]. cbn [events nreq self ticks tick].
    repeat (split; [reflexivity |]).
    split; [| now split].
    apply same_config_set_token_expiry, same_config_set_token, same_config_refl.
Qed.

End Further.

(** ** Further sample runs *)

(** An extend call answered with [T2] stores it and raises
    [AttributeError], the expiry staying at 1590; answered with a page that is
    not JSON it raises [ValueError]. *)
Lemma extend_login_outcomes_witness :
  (exists st',
      extend_login (Sample.scripted [Responded (Sample.ok_json "{token:T2}")])
        (Sample.steady 1600) Sample.loads (Sample.start (Sample.logged_in Lock))
      = (Raise AttributeError, st')
      /\ token (self st') = JStr "T2"
      /\ token_expiry (self st') = Some 1590)
  /\ fst (extend_login (Sample.scripted [Responded Sample.not_json])
            (Sample.steady 1600) Sample.loads
            (Sample.start (Sample.logged_in Lock)))
     = Raise ValueError.
Proof.
  split.
  - destruct (extend_login_outcomes
                (Sample.scripted [Responded (Sample.ok_json "{token:T2}")])
                (Sample.steady 1600) Sample.loads
                (Sample.start (Sample.logged_in Lock))
                (advance (Sample.start (Sample.logged_in Lock)) 1
                   [EvRequest (extend_request (Sample.logged_in Lock))])
                (Sample.ok_json "{token:T2}") eq_refl) as (Hok & _).
    + vm_compute. reflexivity.
    + destruct (Hok eq_refl [("token", JStr "T2")] eq_refl) as (st' & Hrun & Hself).
      exists st'. split; [exact Hrun |]. rewrite Hself. split; reflexivity.
  - destruct (extend_login_outcomes
                (Sample.scripted [Responded Sample.not_json])
                (Sample.steady 1600) Sample.loads
                (Sample.start (Sample.logged_in Lock))
                (advance (Sample.start (Sample.logged_in Lock)) 1
                   [EvRequest (extend_request (Sample.logged_in Lock))])
                Sample.not_json eq_refl) as (_ & Hvalue & _).
    + vm_compute. reflexivity.
    + rewrite (Hvalue eq_refl eq_refl). reflexivity.
Defined.

(** A login answered [ok] with an HTML page raises [ValueError]; answered
    with a JSON list it raises [AttributeError]. *)
Lemma login_with_unusable_body_raises_witness :
  fst (login (Sample.scripted [Responded Sample.not_json]) (Sample.steady 1000)
         More.loads Sample.dumps None (Sample.start Sample.fresh))
  = Raise ValueError
  /\ fst (login (Sample.scripted [Responded (Sample.ok_json "[1,2]")])
            (Sample.steady 1000) More.loads Sample.dumps None
            (Sample.start Sample.fresh))
     = Raise AttributeError.
Proof.
  split.
  - destruct (login_with_unusable_body_raises
                (Sample.scripted [Responded Sample.not_json]) (Sample.steady 1000)
                More.loads Sample.dumps None (Sample.start Sample.fresh)
                (advance (Sample.start Sample.fresh) 1
                   [EvRequest (login_request Sample.dumps Sample.fresh)])
                Sample.not_json eq_refl) as (Hvalue & _).
    + vm_compute. reflexivity.
    + reflexivity.
    + rewrite (Hvalue eq_refl). reflexivity.
  - destruct (login_with_unusable_body_raises
                (Sample.scripted [Responded (Sample.ok_json "[1,2]")])
                (Sample.steady 1000)
                More.loads Sample.dumps None (Sample.start Sample.fresh)
                (advance (Sample.start Sample.fresh) 1
                   [EvRequest (login_request Sample.dumps Sample.fresh)])
                (Sample.ok_json "[1,2]") eq_refl) as (_ & Hattr & _).
    + vm_compute. reflexivity.
    + reflexivity.
    + rewrite (Hattr (JArr [JInt 1; JInt 2]) eq_refl); [reflexivity |].
      discriminate.
Defined.

(** The first call on a fresh client, every request answered 503:
    [execute] ends with [SystemExit], with the plain lock too. *)
Lemma execute_exits_when_login_is_refused_witness :
  exists msg,
    fst (execute (Sample.scripted []) (Sample.steady 1000) Sample.loads
           Sample.dumps Sample.decode 5 "GET" "resources" JNull JNull None false
           true (Sample.start Sample.fresh))
    = Raise (SystemExit msg)
    /\ occurs_in "503" msg.
Proof.
  destruct (execute_exits_when_login_is_refused (Sample.scripted [])
              (Sample.steady 1000) Sample.loads Sample.dumps Sample.decode 5
              "GET" "resources" JNull JNull None false true
              (Sample.start Sample.fresh) Sample.unavailable eq_refl eq_refl)
    as (st' & Hrun & Hstatus & _).
  - intros i _. unfold Sample.scripted. now destruct i.
  - reflexivity.
  - reflexivity.
  - eexists. rewrite Hrun. split; [reflexivity | exact Hstatus].
Defined.

(** A token stored at time 1000 for 590 seconds is read back, and has not
    expired while the clock stands. *)
Lemma update_token_round_trip_witness :
  exists st1,
    PrismaCloudAPI.update_token (Sample.steady 1000) (JStr "T9") 590
      (Sample.start Sample.fresh)
    = (Val tt, st1)
    /\ PrismaCloudAPI.get_token st1 = (Val (JStr "T9"), st1)
    /\ fst (PrismaCloudAPI.is_token_expired (Sample.steady 1000) st1) = Val false.
Proof.
  destruct (update_token_round_trip (Sample.steady 1000) (JStr "T9") 590
              (Sample.start Sample.fresh) eq_refl)
    as (st1 & Hupdate & Hget & Hexpired & _).
  exists st1. split; [exact Hupdate |]. split; [exact Hget | exact Hexpired].
Defined.

(** On a fresh client [make_api_call] refreshes the token first. *)
Lemma make_api_call_refreshes_an_expired_token_witness :
  exists st',
    PrismaCloudAPI.make_api_call (Sample.steady 1000) More.str More.str_exn
      (JStr "resources") JNull (Sample.start Sample.fresh)
    = (Val (JObj [("status", JStr "success")]), st')
    /\ token (self st') = JStr "new_generated_token"
    /\ token_expiry (self st') = Some 1590.
Proof.
  destruct (make_api_call_refreshes_an_expired_token (Sample.steady 1000)
              More.str More.str_exn (JStr "resources") JNull
              (Sample.start Sample.fresh) eq_refl)
    as (st' & Hrun & _ & _ & _ & _ & Htoken & Hexpiry).
  exists st'. split; [exact Hrun |]. split; [exact Htoken | exact Hexpiry].
Defined.

